(** * The streaming chat pipeline of [ChatBox.tsx]

    A shallow embedding of [sendMessage] and [stopGenerating] from
    [src/client/components/Chat/ChatBox.tsx]: the line decoder that
    reassembles the event stream from network chunks, the interpretation of
    each decoded event on the component state, the life cycle of one call
    of [sendMessage] across its suspension points, and the calls of a
    component side by side. *)

From Stdlib Require Import String Ascii.
From Stdlib Require Import List NArith ZArith Bool Lia.
Import ListNotations.

Set Warnings "-register-all".

(** ** JavaScript strings

    A JavaScript string is a sequence of UTF-16 code units.  [u16] reads an
    ASCII literal; the other literals of the source are spelled out below. *)

Definition jsstring := list N.

Definition u16 (s : string) : jsstring :=
  map N_of_ascii (list_ascii_of_string s).

Fixpoint str_eqb (a b : jsstring) : bool :=
  match a, b with
  | [], [] => true
  | c :: a', d :: b' => (c =? d)%N && str_eqb a' b'
  | _, _ => false
  end.

(** [line.startsWith(search)] *)
Fixpoint startsWith (line search : jsstring) : bool :=
  match search, line with
  | [], _ => true
  | c :: search', d :: line' => (d =? c)%N && startsWith line' search'
  | _ :: _, [] => false
  end.

(** [s.slice(n)] for a start index [n >= 0] and no end index. *)
Definition slice (n : nat) (s : jsstring) : jsstring := skipn n s.

Definition LF : N := 10.

(** [s.split(sep)] for a separator of one code unit.  The result is never
    empty: a string without separator is returned as its only element. *)
Fixpoint split (sep : N) (s : jsstring) : list jsstring :=
  match s with
  | [] => [[]]
  | c :: s' =>
      if (c =? sep)%N then [] :: split sep s'
      else match split sep s' with
           | l :: ls => (c :: l) :: ls
           | [] => [[c]]
           end
  end.

(** The code units removed by [String.prototype.trim]: the WhiteSpace and
    LineTerminator productions of ECMAScript. *)
Definition is_trim_space (c : N) : bool :=
  ((9 <=? c) && (c <=? 13) || (c =? 32) || (c =? 160) || (c =? 5760)
   || (8192 <=? c) && (c <=? 8202) || (c =? 8232) || (c =? 8233)
   || (c =? 8239) || (c =? 8287) || (c =? 12288) || (c =? 65279))%N.

Fixpoint trimStart (s : jsstring) : jsstring :=
  match s with
  | c :: s' => if is_trim_space c then trimStart s' else s
  | [] => []
  end.

Definition trimEnd (s : jsstring) : jsstring := rev (trimStart (rev s)).

Definition trim (s : jsstring) : jsstring := trimEnd (trimStart s).

(** The literals of the source that are not ASCII. *)
Definition warning_prefix : jsstring := [9888; 65039; 32]%N.
Definition msg_no_api_key : jsstring :=
  [26410; 37197; 32622; 39764; 25645; 65; 80; 73; 23494; 38053]%N.
Definition msg_request_failed : jsstring := [35831; 27714; 22833; 36133]%N.
Definition msg_no_reader : jsstring :=
  [26080; 27861; 35835; 21462; 21709; 24212; 27969]%N.
Definition msg_processing_failed : jsstring := [22788; 29702; 22833; 36133]%N.
Definition msg_retry_later : jsstring :=
  [35831; 27714; 22833; 36133; 65292; 35831; 31245; 21518; 37325; 35797]%N.

(** ** JavaScript values

    What [JSON.parse] returns, and [undefined] for the result of reading a
    property that is absent.  A number is kept as the literal it was read
    from: the code observes a number only through its conversion to a string
    and to a boolean, which belong to the host (see [Host]).  The properties
    of an object are kept in source order; on a repeated key the last
    occurrence is the one [JSON.parse] retains. *)

Inductive JSValue : Type :=
| JUndefined
| JNull
| JBool (b : bool)
| JNumber (literal : jsstring)
| JString (s : jsstring)
| JArray (elements : list JSValue)
| JObject (props : list (jsstring * JSValue)).

Fixpoint lookup (key : jsstring) (props : list (jsstring * JSValue))
  : JSValue :=
  match props with
  | [] => JUndefined
  | (k, v) :: rest =>
      match lookup key rest with
      | JUndefined => if str_eqb k key then v else JUndefined
      | later => later
      end
  end.

(** Whether the object has a property of its own under [key]. *)
Definition has_own (key : jsstring) (props : list (jsstring * JSValue))
  : bool :=
  existsb (fun kv => str_eqb (fst kv) key) props.

(** [v.key] for one of the keys [type], [data], [error]: [None] when the
    access throws a TypeError ([v] is [null] or [undefined]); primitives and
    arrays have no such property. *)
Definition get (key : jsstring) (v : JSValue) : option JSValue :=
  match v with
  | JUndefined | JNull => None
  | JObject props => Some (lookup key props)
  | _ => Some JUndefined
  end.

(** [v === 'literal'] *)
Definition is_string (literal : jsstring) (v : JSValue) : bool :=
  match v with
  | JString s => str_eqb s literal
  | _ => false
  end.

(** ** The host

    The built-ins of the JavaScript host that the component calls and whose
    behaviour is not defined by this repository. *)

Record JSError : Type := mkError { name : jsstring; message : jsstring }.

Record Host : Type := mkHost {
  (** [JSON.parse(text)]; [None] when it throws a SyntaxError. *)
  JSON_parse : jsstring -> option JSValue;
  (** Conversion of a number to a string and to a boolean. *)
  Number_toString : jsstring -> jsstring;
  Number_toBoolean : jsstring -> bool;
  (** [Date.now()]: the result of its k-th call. *)
  Date_now : nat -> Z
}.

Section Decoder.

Variable host : Host.

(** The conversion applied by [content += v] and by a template literal,
    [None] when it throws a TypeError.  An array is joined with commas, its
    [null] entries left empty.  An object that [JSON.parse] has built
    inherits [toString] from [Object.prototype] unless it has a key of that
    name: the value under the key is not callable, no method is left that
    yields a primitive, and the conversion throws. *)
Fixpoint ToString (v : JSValue) : option jsstring :=
  match v with
  | JUndefined => Some (u16 "undefined")
  | JNull => Some (u16 "null")
  | JBool true => Some (u16 "true")
  | JBool false => Some (u16 "false")
  | JNumber n => Some (Number_toString host n)
  | JString s => Some s
  | JArray elements =>
      (fix join (l : list JSValue) : option jsstring :=
         match l with
         | [] => Some []
         | e :: l' =>
             let piece :=
               match e with
               | JUndefined | JNull => Some []
               | _ => ToString e
               end in
             match piece, l' with
             | None, _ => None
             | Some piece, [] => Some piece
             | Some piece, _ :: _ =>
                 match join l' with
                 | Some rest => Some (piece ++ 44%N :: rest)
                 | None => None
                 end
             end
         end) elements
  | JObject props =>
      if has_own (u16 "toString") props then None
      else Some (u16 "[object Object]")
  end.

(** Truthiness, as tested by [v || fallback] and [!v]. *)
Definition ToBoolean (v : JSValue) : bool :=
  match v with
  | JUndefined | JNull => false
  | JBool b => b
  | JNumber n => Number_toBoolean host n
  | JString [] => false
  | JString (_ :: _) => true
  | JArray _ | JObject _ => true
  end.

(** ** Frames

    The three branches of the event interpreter, with the value each one
    reads from the parsed event. *)

Inductive Frame : Type :=
| FContent (data : JSValue)
| FEnd
| FError (error : JSValue).

(** Lines 95-128, up to the choice of the branch: a line yields a frame when
    it starts with the marker, its body parses and the [type] of the parsed
    value is one of the three known strings.  Whatever the [try] block throws
    is caught and ignored. *)
Definition decode_line (line : jsstring) : option Frame :=
  if startsWith line (u16 "data: ") then
    match JSON_parse host (slice 6 line) with
    | None => None
    | Some parsed =>
        match get (u16 "type") parsed with
        | None => None
        | Some type =>
            if is_string (u16 "content") type then
              match get (u16 "data") parsed with
              | Some d => Some (FContent d)
              | None => None
              end
            else if is_string (u16 "end") type then Some FEnd
            else if is_string (u16 "error") type then
              match get (u16 "error") parsed with
              | Some e => Some (FError e)
              | None => None
              end
            else None
        end
    end
  else None.

(** Lines 90-92: the chunk is appended to the buffer, the buffer is split on
    newlines, and the last piece is popped off to become the new buffer. *)
Definition pop (lines : list jsstring) : list jsstring * jsstring :=
  (removelast lines, last lines []).

Definition feed_lines (buffer chunk : jsstring) : list jsstring * jsstring :=
  pop (split LF (buffer ++ chunk)).

Fixpoint decode_lines (lines : list jsstring) : list Frame :=
  match lines with
  | [] => []
  | line :: rest =>
      match decode_line line with
      | Some f => f :: decode_lines rest
      | None => decode_lines rest
      end
  end.

(** One turn of the read loop seen from the decoder: the frames completed by
    the chunk, and the buffer retained. *)
Definition feed (buffer chunk : jsstring) : list Frame * jsstring :=
  let (lines, buffer') := feed_lines buffer chunk in
  (decode_lines lines, buffer').

(** The frames of a sequence of chunks fed in order, and the final buffer. *)
Fixpoint feed_all (buffer : jsstring) (chunks : list jsstring)
  : list Frame * jsstring :=
  match chunks with
  | [] => ([], buffer)
  | chunk :: rest =>
      let (frames, buffer') := feed buffer chunk in
      let (frames', buffer'') := feed_all buffer' rest in
      (frames ++ frames', buffer'')
  end.

End Decoder.

(** ** The component

    [messages], [inputValue] and [isLoading] are the React state of the
    component.  State updates are queued and applied in the order in which
    they are issued, so each [setMessages(prev => ...)] is applied here to
    the current value at once.  The effects that leave the component are
    recorded beside the state: the texts handed to [onSpeak], the requests
    handed to [fetch], and how many times [Date.now()] has been called. *)

Inductive Role : Type := user | assistant.

Record ChatMessage : Type := mkMessage {
  role : Role;
  content : jsstring;
  timestamp : Z
}.

(** The request handed to [fetch]: the key header and the body, without
    the [currentData] snapshot, which the component passes on unread. *)
Record Request : Type := mkRequest {
  req_api_key : jsstring;
  req_message : jsstring;
  req_conversationHistory : list ChatMessage
}.

Record ChatBox : Type := mkChatBox {
  messages : list ChatMessage;
  inputValue : jsstring;
  isLoading : bool;
  spoken : list jsstring;
  requests : list Request;
  ticks : nat
}.

Definition setMessages (f : list ChatMessage -> list ChatMessage)
  (box : ChatBox) : ChatBox :=
  mkChatBox (f (messages box)) (inputValue box) (isLoading box)
    (spoken box) (requests box) (ticks box).

Definition setInputValue (v : jsstring) (box : ChatBox) : ChatBox :=
  mkChatBox (messages box) v (isLoading box)
    (spoken box) (requests box) (ticks box).

Definition setIsLoading (b : bool) (box : ChatBox) : ChatBox :=
  mkChatBox (messages box) (inputValue box) b
    (spoken box) (requests box) (ticks box).

Definition speak (text : jsstring) (box : ChatBox) : ChatBox :=
  mkChatBox (messages box) (inputValue box) (isLoading box)
    (spoken box ++ [text]) (requests box) (ticks box).

Definition fetch (r : Request) (box : ChatBox) : ChatBox :=
  mkChatBox (messages box) (inputValue box) (isLoading box)
    (spoken box) (requests box ++ [r]) (ticks box).

Definition tick (box : ChatBox) : ChatBox :=
  mkChatBox (messages box) (inputValue box) (isLoading box)
    (spoken box) (requests box) (S (ticks box)).

(** What a call of [sendMessage] captures from the render in which it was
    created: [messages] as it was before the call (the call never sees a
    later value of it), the trimmed input, and whether the [onSpeak] prop is
    present.  The captured array shares its entries with the transcript, and
    the updaters rewrite the last entry of the transcript in place; but the
    call appends its own entries before the first frame is applied, so the
    entry that a frame rewrites is never a captured one, and the captured
    array is kept here as the value it had. *)
Record Closure : Type := mkClosure {
  c_messages : list ChatMessage;
  c_message : jsstring;
  c_onSpeak : bool
}.

(** [a[a.length - 1]], [None] for [undefined]. *)
Definition last_message (ms : list ChatMessage) : option ChatMessage :=
  nth_error ms (length ms - 1).

(** Lines 103-108 and 121-126: the array is copied, and the content of its
    last entry is replaced when that entry exists and is the assistant's. *)
Definition update_last (f : jsstring -> jsstring) (prev : list ChatMessage)
  : list ChatMessage :=
  match last_message prev with
  | Some lastMessage =>
      match role lastMessage with
      | assistant =>
          removelast prev ++
          [mkMessage assistant (f (content lastMessage))
             (timestamp lastMessage)]
      | user => prev
      end
  | None => prev
  end.

Section Component.

Variable host : Host.

(** Lines 100-128: the effect of one frame.  The value of a content or
    error frame is converted inside the state updater, which React runs
    outside the [try] block.  When the conversion throws, the updater yields
    no new state: the transcript is kept as it was, and what React makes of
    the component after the failed render is not modelled. *)
Definition apply_frame (c : Closure) (f : Frame) (box : ChatBox) : ChatBox :=
  match f with
  | FContent data =>
      match ToString host data with
      | Some text => setMessages (update_last (fun old => old ++ text)) box
      | None => box
      end
  | FEnd =>
      let box := setIsLoading false box in
      let finalContent :=
        match last_message (c_messages c) with
        | Some m => content m
        | None => []
        end in
      match finalContent with
      | _ :: _ => if c_onSpeak c then speak finalContent box else box
      | [] => box
      end
  | FError error =>
      let box := setIsLoading false box in
      let shown :=
        if ToBoolean host error then ToString host error
        else Some msg_processing_failed in
      match shown with
      | Some text =>
          setMessages (update_last (fun _ => warning_prefix ++ text)) box
      | None => box
      end
  end.

Definition apply_frames (c : Closure) (fs : list Frame) (box : ChatBox)
  : ChatBox :=
  fold_left (fun b f => apply_frame c f b) fs box.

(** Lines 94-133: the loop over the lines of one chunk. *)
Definition process_line (c : Closure) (line : jsstring) (box : ChatBox)
  : ChatBox :=
  match decode_line host line with
  | Some f => apply_frame c f box
  | None => box
  end.

Definition process_lines (c : Closure) (lines : list jsstring)
  (box : ChatBox) : ChatBox :=
  fold_left (fun b line => process_line c line b) lines box.

(** Lines 135-148: the [catch] clause. *)
Definition catch (error : JSError) (box : ChatBox) : ChatBox :=
  if str_eqb (name error) (u16 "AbortError") then setIsLoading false box
  else
    let text :=
      match message error with
      | [] => msg_retry_later
      | m => m
      end in
    let errorMessage :=
      mkMessage assistant (warning_prefix ++ text)
        (Date_now host (ticks box)) in
    setIsLoading false
      (setMessages (fun prev => prev ++ [errorMessage]) (tick box)).

(** ** One call of [sendMessage]

    The call runs until it awaits the response of [fetch] or the next
    [reader.read()], and is resumed by what the awaited promise settles
    with. *)

Inductive Call : Type :=
| Returned
| AwaitFetch (c : Closure)
| AwaitRead (c : Closure) (buffer : jsstring).

Inductive FetchResult : Type :=
| Response (ok : bool) (body : bool)
| FetchRejected (error : JSError).

Inductive ReadResult : Type :=
| Chunk (text : jsstring)
| Done
| ReadRejected (error : JSError).

Definition Error (m : jsstring) : JSError := mkError (u16 "Error") m.

Definition AbortError : JSError :=
  mkError (u16 "AbortError") (u16 "The user aborted a request.").

(** Lines 28-63: from the click to the first suspension.  [apiKey] is what
    the key service returns, [None] for a missing key. *)
Definition sendMessage (apiKey : option jsstring) (onSpeak : bool)
  (box : ChatBox) : ChatBox * Call :=
  let message := trim (inputValue box) in
  match message, isLoading box with
  | [], _ | _, true => (box, Returned)
  | _ :: _, false =>
      let userMessage := mkMessage user message (Date_now host (ticks box)) in
      let c := mkClosure (messages box) message onSpeak in
      let box := setMessages (fun prev => prev ++ [userMessage]) (tick box) in
      let box := setInputValue [] box in
      let box := setIsLoading true box in
      match apiKey with
      | Some (k :: key) =>
          (fetch (mkRequest (k :: key) message (c_messages c)) box,
           AwaitFetch c)
      | _ => (catch (Error msg_no_api_key) box, Returned)
      end
  end.

(** Lines 65-80: resumed with the outcome of [fetch]. *)
Definition resume_fetch (c : Closure) (r : FetchResult) (box : ChatBox)
  : ChatBox * Call :=
  match r with
  | FetchRejected error => (catch error box, Returned)
  | Response false _ => (catch (Error msg_request_failed) box, Returned)
  | Response true false => (catch (Error msg_no_reader) box, Returned)
  | Response true true =>
      let assistantMessage :=
        mkMessage assistant [] (Date_now host (ticks box)) in
      (setMessages (fun prev => prev ++ [assistantMessage]) (tick box),
       AwaitRead c [])
  end.

(** Lines 86-134: resumed with the outcome of [reader.read()].  The text of
    a chunk is what the streaming [TextDecoder] makes of its bytes. *)
Definition resume_read (c : Closure) (buffer : jsstring) (r : ReadResult)
  (box : ChatBox) : ChatBox * Call :=
  match r with
  | Done => (box, Returned)
  | ReadRejected error => (catch error box, Returned)
  | Chunk text =>
      let (lines, buffer') := feed_lines buffer text in
      (process_lines c lines box, AwaitRead c buffer')
  end.

(** [controller.abort()], for the call that created the controller: the
    promise that the call awaits, if any, rejects with an AbortError. *)
Definition abort (st : ChatBox * Call) : ChatBox * Call :=
  let (box, call) := st in
  match call with
  | Returned => (box, Returned)
  | AwaitFetch c => resume_fetch c (FetchRejected AbortError) box
  | AwaitRead c buffer => resume_read c buffer (ReadRejected AbortError) box
  end.

(** What can happen to a call after [sendMessage] has started it, when the
    call is followed alone: it is the latest call of the component, so that
    the ref holds its controller, and no other call is running beside it
    (the calls of a component are put together in [Component] below).  A
    promise settles only for the call that awaits it: an event that does
    not answer the suspension point of the call finds nothing to resume.
    [Stop] is the stop click (lines 152-155), which aborts the controller
    in the ref and lowers the loading flag. *)
Inductive Event : Type :=
| Fetched (r : FetchResult)
| Read (r : ReadResult)
| Stop.

Definition step (st : ChatBox * Call) (e : Event) : ChatBox * Call :=
  match e, st with
  | Stop, (box, call) => abort (setIsLoading false box, call)
  | Fetched r, (box, AwaitFetch c) => resume_fetch c r box
  | Read r, (box, AwaitRead c buffer) => resume_read c buffer r box
  | _, _ => st
  end.

Definition run (st : ChatBox * Call) (events : list Event)
  : ChatBox * Call :=
  fold_left step events st.

(** *** The calls of a component

    Nothing keeps a second call of [sendMessage] from being made while an
    earlier one is still reading: an end or error frame lowers [isLoading]
    and does not leave the read loop.  The calls run on the same state, each
    resumed when the promise it awaits settles. *)

(** The component with the calls of [sendMessage] made so far, oldest
    first.  [abortControllerRef] is the ref of line 20: it holds the
    controller of one call, given here by the position of that call, or
    nothing before the first call. *)
Record Component : Type := mkComponent {
  chatbox : ChatBox;
  calls : list Call;
  abortControllerRef : option nat }.

Fixpoint set_nth {A : Type} (i : nat) (x : A) (l : list A) : list A :=
  match l, i with
  | [], _ => []
  | _ :: rest, O => x :: rest
  | y :: rest, S j => y :: set_nth j x rest
  end.

(** What happens to a component: the user types, sends, stops or clears,
    or the promise that the call at position [i] awaits settles. *)
Inductive Action : Type :=
| Typed (text : jsstring)
| Sent (apiKey : option jsstring) (onSpeak : bool)
| Stopped
| Cleared
| FetchSettled (i : nat) (r : FetchResult)
| ReadSettled (i : nat) (r : ReadResult).

(** [resume] hands the state of the component to the call at position
    [i], which goes on from where it was suspended. *)
Definition resume (i : nat) (k : ChatBox * Call -> ChatBox * Call)
  (comp : Component) : Component :=
  match nth_error (calls comp) i with
  | Some call =>
      let (box, call') := k (chatbox comp, call) in
      mkComponent box (set_nth i call' (calls comp)) (abortControllerRef comp)
  | None => comp
  end.

(** A call of [sendMessage] on the component.  Past the guard of line 30
    the call creates its controller and stores it in the ref (line 43),
    where it takes the place of the controller of the call before. *)
Definition send (apiKey : option jsstring) (onSpeak : bool)
  (comp : Component) : Component :=
  match trim (inputValue (chatbox comp)), isLoading (chatbox comp) with
  | [], _ | _, true => comp
  | _ :: _, false =>
      let (box, call) := sendMessage apiKey onSpeak (chatbox comp) in
      mkComponent box (calls comp ++ [call]) (Some (length (calls comp)))
  end.

(** Lines 152-155: the stop click aborts the controller that the ref
    holds, which is that of the latest call and of no other, and lowers the
    loading flag.  The call that is aborted resumes in its [catch] clause
    once the handler has returned. *)
Definition stopGenerating (comp : Component) : Component :=
  let comp :=
    mkComponent (setIsLoading false (chatbox comp)) (calls comp)
      (abortControllerRef comp) in
  match abortControllerRef comp with
  | Some i => resume i abort comp
  | None => comp
  end.

(** One action on the component: the input changes (lines 237 and 253),
    [sendMessage] or [stopGenerating] is called, the conversation is cleared
    (line 176), or a call is resumed with what its promise has settled
    to. *)
Definition component_step (comp : Component) (a : Action) : Component :=
  match a with
  | Typed text =>
      mkComponent (setInputValue text (chatbox comp)) (calls comp)
        (abortControllerRef comp)
  | Sent apiKey onSpeak => send apiKey onSpeak comp
  | Stopped => stopGenerating comp
  | Cleared =>
      mkComponent (setMessages (fun _ => []) (chatbox comp)) (calls comp)
        (abortControllerRef comp)
  | FetchSettled i r => resume i (fun st => step st (Fetched r)) comp
  | ReadSettled i r => resume i (fun st => step st (Read r)) comp
  end.

Definition component_run (comp : Component) (actions : list Action)
  : Component :=
  fold_left component_step actions comp.

End Component.

(** ** A reference host

    A parser for the JSON grammar of ECMA-404, as [JSON.parse] accepts it,
    by recursive descent.  The descent is bounded by a fuel that
    [JSON_parse_fuel] sets high enough for the text at hand (see
    [JsonProperties.parse_text_fuel]). *)

Module Json.

Inductive result (A : Type) : Type :=
| Ok (a : A) (rest : jsstring)
| SyntaxError
| OutOfFuel.

Arguments Ok {A} a rest.
Arguments SyntaxError {A}.
Arguments OutOfFuel {A}.

Definition is_ws (c : N) : bool :=
  ((c =? 32) || (c =? 9) || (c =? 10) || (c =? 13))%N.

Fixpoint skip_ws (s : jsstring) : jsstring :=
  match s with
  | c :: s' => if is_ws c then skip_ws s' else s
  | [] => []
  end.

Definition is_digit (c : N) : bool := ((48 <=? c) && (c <=? 57))%N.

Definition hex_digit (c : N) : option N :=
  if is_digit c then Some (c - 48)%N
  else if ((65 <=? c) && (c <=? 70))%N then Some (c - 55)%N
  else if ((97 <=? c) && (c <=? 102))%N then Some (c - 87)%N
  else None.

Definition escape (c : N) : option N :=
  if ((c =? 34) || (c =? 92) || (c =? 47))%N then Some c
  else if (c =? 98)%N then Some 8%N
  else if (c =? 102)%N then Some 12%N
  else if (c =? 110)%N then Some 10%N
  else if (c =? 114)%N then Some 13%N
  else if (c =? 116)%N then Some 9%N
  else None.

(** The characters of a string, after its opening quote. *)
Fixpoint parse_chars (s : jsstring) : option (jsstring * jsstring) :=
  match s with
  | [] => None
  | c :: rest =>
      if (c =? 34)%N then Some ([], rest)
      else if (c =? 92)%N then
        match rest with
        | [] => None
        | e :: rest1 =>
            if (e =? 117)%N then
              match rest1 with
              | h1 :: h2 :: h3 :: h4 :: rest2 =>
                  match hex_digit h1, hex_digit h2, hex_digit h3,
                        hex_digit h4 with
                  | Some d1, Some d2, Some d3, Some d4 =>
                      match parse_chars rest2 with
                      | Some (str, r) =>
                          Some ((((d1 * 16 + d2) * 16 + d3) * 16 + d4)%N
                                :: str, r)
                      | None => None
                      end
                  | _, _, _, _ => None
                  end
              | _ => None
              end
            else
              match escape e with
              | Some d =>
                  match parse_chars rest1 with
                  | Some (str, r) => Some (d :: str, r)
                  | None => None
                  end
              | None => None
              end
        end
      else if (c <? 32)%N then None
      else
        match parse_chars rest with
        | Some (str, r) => Some (c :: str, r)
        | None => None
        end
  end.

Fixpoint digits (s : jsstring) : jsstring * jsstring :=
  match s with
  | c :: s' =>
      if is_digit c then let (ds, r) := digits s' in (c :: ds, r)
      else ([], s)
  | [] => ([], [])
  end.

(** The parts of a number, each with what follows it: an optional minus
    sign, an integer without leading zero, an optional fraction and an
    optional exponent. *)
Definition take_sign (s : jsstring) : jsstring * jsstring :=
  match s with
  | c :: r => if (c =? 45)%N then ([c], r) else ([], s)
  | [] => ([], s)
  end.

Definition take_int (s : jsstring) : option (jsstring * jsstring) :=
  match s with
  | d :: r =>
      if is_digit d then
        if (d =? 48)%N then Some ([d], r)
        else let (ds, r') := digits r in Some (d :: ds, r')
      else None
  | [] => None
  end.

Definition take_frac (s : jsstring) : option (jsstring * jsstring) :=
  match s with
  | p :: r =>
      if (p =? 46)%N then
        match digits r with
        | ([], _) => None
        | (ds, r') => Some (p :: ds, r')
        end
      else Some ([], s)
  | [] => Some ([], s)
  end.

Definition take_exp (s : jsstring) : option (jsstring * jsstring) :=
  match s with
  | e :: r =>
      if ((e =? 101) || (e =? 69))%N then
        let (esign, r1) :=
          match r with
          | g :: r' => if ((g =? 43) || (g =? 45))%N then ([g], r')
                       else ([], r)
          | [] => ([], r)
          end in
        match digits r1 with
        | ([], _) => None
        | (ds, r2) => Some (e :: esign ++ ds, r2)
        end
      else Some ([], s)
  | [] => Some ([], s)
  end.

(** A number: its literal and what follows it. *)
Definition parse_number (s : jsstring) : option (jsstring * jsstring) :=
  let (sign, s1) := take_sign s in
  match take_int s1 with
  | None => None
  | Some (int, s2) =>
      match take_frac s2 with
      | None => None
      | Some (frac, s3) =>
          match take_exp s3 with
          | None => None
          | Some (exp, s4) => Some (sign ++ int ++ frac ++ exp, s4)
          end
      end
  end.

Fixpoint parse_value (fuel : nat) (s : jsstring) : result JSValue :=
  match fuel with
  | O => OutOfFuel
  | S fuel =>
      match s with
      | [] => SyntaxError
      | c :: r =>
          if (c =? 34)%N then
            match parse_chars r with
            | Some (str, rest) => Ok (JString str) rest
            | None => SyntaxError
            end
          else if (c =? 123)%N then
            match skip_ws r with
            | [] => SyntaxError
            | c' :: rest =>
                if (c' =? 125)%N then Ok (JObject []) rest
                else
                  match parse_members fuel (c' :: rest) with
                  | Ok props rest' => Ok (JObject props) rest'
                  | SyntaxError => SyntaxError
                  | OutOfFuel => OutOfFuel
                  end
            end
          else if (c =? 91)%N then
            match skip_ws r with
            | [] => SyntaxError
            | c' :: rest =>
                if (c' =? 93)%N then Ok (JArray []) rest
                else
                  match parse_elements fuel (c' :: rest) with
                  | Ok elements rest' => Ok (JArray elements) rest'
                  | SyntaxError => SyntaxError
                  | OutOfFuel => OutOfFuel
                  end
            end
          else if startsWith s (u16 "true") then Ok (JBool true) (skipn 4 s)
          else if startsWith s (u16 "false") then Ok (JBool false) (skipn 5 s)
          else if startsWith s (u16 "null") then Ok JNull (skipn 4 s)
          else
            match parse_number s with
            | Some (literal, rest) => Ok (JNumber literal) rest
            | None => SyntaxError
            end
      end
  end

(** The elements of an array from the first one to the closing bracket. *)
with parse_elements (fuel : nat) (s : jsstring) : result (list JSValue) :=
  match fuel with
  | O => OutOfFuel
  | S fuel =>
      match parse_value fuel s with
      | Ok v rest =>
          match skip_ws rest with
          | [] => SyntaxError
          | c :: rest' =>
              if (c =? 93)%N then Ok [v] rest'
              else if (c =? 44)%N then
                match parse_elements fuel (skip_ws rest') with
                | Ok vs rest'' => Ok (v :: vs) rest''
                | SyntaxError => SyntaxError
                | OutOfFuel => OutOfFuel
                end
              else SyntaxError
          end
      | SyntaxError => SyntaxError
      | OutOfFuel => OutOfFuel
      end
  end

(** The members of an object from the first key to the closing brace. *)
with parse_members (fuel : nat) (s : jsstring)
  : result (list (jsstring * JSValue)) :=
  match fuel with
  | O => OutOfFuel
  | S fuel =>
      match s with
      | [] => SyntaxError
      | q :: r =>
          if (q =? 34)%N then
            match parse_chars r with
            | None => SyntaxError
            | Some (key, rest) =>
                match skip_ws rest with
                | [] => SyntaxError
                | colon :: rest1 =>
                    if (colon =? 58)%N then
                      match parse_value fuel (skip_ws rest1) with
                      | Ok v rest2 =>
                          match skip_ws rest2 with
                          | [] => SyntaxError
                          | c :: rest3 =>
                              if (c =? 125)%N then Ok [(key, v)] rest3
                              else if (c =? 44)%N then
                                match parse_members fuel (skip_ws rest3) with
                                | Ok ms rest4 => Ok ((key, v) :: ms) rest4
                                | SyntaxError => SyntaxError
                                | OutOfFuel => OutOfFuel
                                end
                              else SyntaxError
                          end
                      | SyntaxError => SyntaxError
                      | OutOfFuel => OutOfFuel
                      end
                    else SyntaxError
                end
            end
          else SyntaxError
      end
  end.

(** A whole text: one value between optional white space. *)
Definition parse_text (fuel : nat) (text : jsstring) : result JSValue :=
  match parse_value fuel (skip_ws text) with
  | Ok v rest =>
      match skip_ws rest with
      | [] => Ok v []
      | _ :: _ => SyntaxError
      end
  | other => other
  end.

Definition JSON_parse_fuel (text : jsstring) : nat :=
  S (2 * length text).

Definition parse (text : jsstring) : option JSValue :=
  match parse_text (JSON_parse_fuel text) text with
  | Ok v _ => Some v
  | _ => None
  end.

End Json.

(** A number literal is truthy when its mantissa has a digit other than 0
    (a literal that underflows to zero is outside this reading). *)
Fixpoint literal_toBoolean (literal : jsstring) : bool :=
  match literal with
  | [] => false
  | c :: rest =>
      if ((c =? 101) || (c =? 69))%N then false
      else if ((49 <=? c) && (c <=? 57))%N then true
      else literal_toBoolean rest
  end.

(** The reference host renders a number as its literal, which is what the
    host prints for an integer literal of magnitude below 2^53 written
    without sign of zero, fraction or exponent. *)
Definition reference_host : Host :=
  mkHost Json.parse (fun literal => literal) literal_toBoolean
    (fun k => (1700000000000 + Z.of_nat k)%Z).

(** A component that has just been mounted, with [text] typed in. *)
Definition typed (text : string) : ChatBox :=
  mkChatBox [] (u16 text) false [] [] 0.

(** A chunk of the response body, and a script of chunks. *)
Definition chunk (text : jsstring) : Event := Read (Chunk text).
Definition chunks (texts : list jsstring) : list Event := map chunk texts.

(** An ASCII literal of an event line, written with an apostrophe wherever
    the line has a double quote. *)
Definition wire (s : string) : jsstring :=
  map (fun c => if (c =? 39)%N then 34%N else c) (u16 s).

(** The response stream of the end-to-end scenario, one event per line. *)
Definition scenario_stream : list jsstring :=
  [wire "data: {'type':'content','data':'Rev '}";
   wire "data: {'type':'content','data':'is up'}";
   wire "data: {'type':'end'}"].

Definition unlines (lines : list jsstring) : jsstring :=
  concat (map (fun l => l ++ [LF]) lines).

(** ** Sample sessions on the reference host *)

Definition api_key : option jsstring := Some (u16 "sk-demo").

(** The component after the user has sent [text] and the request has been
    accepted: the call is reading the response body. *)
Definition streaming (text : string) : ChatBox * Call :=
  run reference_host (sendMessage reference_host api_key true (typed text))
    [Fetched (Response true true)].

Definition content_line (payload : string) : jsstring :=
  wire "data: {'type':'content','data':'" ++ u16 payload ++ wire "'}".

Definition end_line : jsstring := wire "data: {'type':'end'}".

Definition error_line (reason : string) : jsstring :=
  wire "data: {'type':'error','error':'" ++ u16 reason ++ wire "'}".

(** Two content events cut in the middle of a JSON token. *)
Definition hello_chunks : list jsstring :=
  [wire "data: {'type':'content','da";
   wire "ta':'He'}" ++ [LF] ++ content_line "llo" ++ [LF]].

(** A component whose transcript holds an earlier exchange. *)
Definition second_turn (text : string) : ChatBox :=
  mkChatBox
    [mkMessage user (u16 "margin?") 1600000000000;
     mkMessage assistant (u16 "Margin fell") 1600000000001]
    (u16 text) false [] [] 0.

(** ** Further parts of the chat box *)

(** Line 261: the condition under which the send button is disabled. *)
Definition send_disabled (box : ChatBox) : bool :=
  isLoading box ||
  match trim (inputValue box) with
  | [] => true
  | _ :: _ => false
  end.

(** Line 176: the button that clears the conversation. *)
Definition clearMessages (box : ChatBox) : ChatBox :=
  setMessages (fun _ => []) box.

(** Line 114: the content that an end frame hands to [onSpeak], read from
    the transcript [ms]. *)
Definition finalContent (ms : list ChatMessage) : jsstring :=
  match last_message ms with
  | Some m => content m
  | None => []
  end.

Definition is_content (f : Frame) : bool :=
  match f with
  | FContent _ => true
  | _ => false
  end.


(** A call resumes only from a suspension point: a continuation finds
    nothing to resume in a call that has returned. *)
Definition keeps_returned (k : ChatBox * Call -> ChatBox * Call) : Prop :=
  forall box, k (box, Returned) = (box, Returned).

(** What brings nothing new from the user: a promise settles, or the stop
    button is clicked. *)
Definition passive (a : Action) : bool :=
  match a with
  | Stopped | FetchSettled _ _ | ReadSettled _ _ => true
  | Typed _ | Sent _ _ | Cleared => false
  end.

(** What the rendered component lets happen.  The input takes text and the
    Enter key while it is not disabled (line 256), the send button is not
    enabled at any other time (line 261), the stop button is rendered while
    the component is loading (line 212), and a promise settles for a call
    that awaits it. *)
Definition enabled (comp : Component) (a : Action) : bool :=
  match a with
  | Typed _ | Sent _ _ => negb (isLoading (chatbox comp))
  | Stopped => isLoading (chatbox comp)
  | Cleared => true
  | FetchSettled i _ =>
      match nth_error (calls comp) i with
      | Some (AwaitFetch _) => true
      | _ => false
      end
  | ReadSettled i _ =>
      match nth_error (calls comp) i with
      | Some (AwaitRead _ _) => true
      | _ => false
      end
  end.

Fixpoint feasible (host : Host) (comp : Component) (actions : list Action)
  : bool :=
  match actions with
  | [] => true
  | a :: rest =>
      enabled comp a && feasible host (component_step host comp a) rest
  end.

(** The position of the last of [n] calls. *)
Definition pred_error (n : nat) : option nat :=
  match n with
  | O => None
  | S i => Some i
  end.

(** The chat box as it is mounted. *)
Definition empty_chat : Component :=
  mkComponent (mkChatBox [] [] false [] [] 0) [] None.

(** A first turn whose stream has carried its end frame and stays open. *)
Definition first_turn : list Action :=
  [Typed (u16 "q1"); Sent api_key true;
   FetchSettled 0 (Response true true);
   ReadSettled 0 (Chunk (unlines [content_line "first"; end_line]))].

Definition is_error (f : Frame) : bool :=
  match f with
  | FError _ => true
  | _ => false
  end.

(** The payloads of the content frames, in arrival order, as the text that
    [+=] appends: a text payload is appended as it is, another value is
    converted.  [None] when a conversion throws. *)
Fixpoint payload_texts (host : Host) (fs : list Frame)
  : option (list jsstring) :=
  match fs with
  | [] => Some []
  | FContent data :: rest =>
      match ToString host data, payload_texts host rest with
      | Some text, Some texts => Some (text :: texts)
      | _, _ => None
      end
  | _ :: rest => payload_texts host rest
  end.

(** ** The dashboard

    The data generation, the broadcast and the avatar of [App.tsx].  The
    arithmetic and the formatting of numbers belong to the host: the code is
    modelled over any implementation of them. *)

(** The literals of [App.tsx]. *)

(** 暂无数据可播报 *)
Definition txt_no_data : jsstring :=
  [26242; 26080; 25968; 25454; 21487; 25773; 25253]%N.

(** 营业收入 *)
Definition name_revenue : jsstring := [33829; 19994; 25910; 20837]%N.

(** 毛利率 *)
Definition name_margin : jsstring := [27611; 21033; 29575]%N.

(** 活跃用户 *)
Definition name_users : jsstring := [27963; 36291; 29992; 25143]%N.

(** 订单量 *)
Definition name_orders : jsstring := [35746; 21333; 37327]%N.

(** 现在为您播报本次业务数据概况。 *)
Definition txt_intro : jsstring :=
  [29616; 22312; 20026; 24744; 25773; 25253; 26412; 27425; 19994; 21153;
   25968; 25454; 27010; 20917; 12290]%N.

(** 增长 *)
Definition txt_growth : jsstring := [22686; 38271]%N.

(** 上升 *)
Definition txt_rise : jsstring := [19978; 21319]%N.

(** 下降 *)
Definition txt_decline : jsstring := [19979; 38477]%N.

(** 持平 *)
Definition txt_flat : jsstring := [25345; 24179]%N.

(** 营业收入为 *)
Definition txt_revenue_is : jsstring := [33829; 19994; 25910; 20837; 20026]%N.

(** 万元，较上期 *)
Definition txt_wan_yuan_vs : jsstring :=
  [19975; 20803; 65292; 36739; 19978; 26399]%N.

(** %。 *)
Definition txt_percent_stop : jsstring := [37; 12290]%N.

(** 毛利率为 *)
Definition txt_margin_is : jsstring := [27611; 21033; 29575; 20026]%N.

(** %，较上期 *)
Definition txt_percent_vs : jsstring := [37; 65292; 36739; 19978; 26399]%N.

(** 个百分点。 *)
Definition txt_points_stop : jsstring :=
  [20010; 30334; 20998; 28857; 12290]%N.

(** 活跃用户数为 *)
Definition txt_users_is : jsstring :=
  [27963; 36291; 29992; 25143; 25968; 20026]%N.

(** 人，较上期 *)
Definition txt_people_vs : jsstring := [20154; 65292; 36739; 19978; 26399]%N.

(** 订单量为 *)
Definition txt_orders_is : jsstring := [35746; 21333; 37327; 20026]%N.

(** 单，较上期 *)
Definition txt_orders_vs : jsstring := [21333; 65292; 36739; 19978; 26399]%N.

(** 需要注意的是， *)
Definition txt_attention : jsstring :=
  [38656; 35201; 27880; 24847; 30340; 26159; 65292]%N.

(** ； *)
Definition txt_semicolon : jsstring := [65307]%N.

(** 。 *)
Definition txt_full_stop : jsstring := [12290]%N.

(** 播报完毕。 *)
Definition txt_outro : jsstring := [25773; 25253; 23436; 27605; 12290]%N.

(** 数据更新完毕。 *)
Definition txt_data_updated : jsstring :=
  [25968; 25454; 26356; 26032; 23436; 27605; 12290]%N.

(** 数据生成失败 *)
Definition txt_generation_failed : jsstring :=
  [25968; 25454; 29983; 25104; 22833; 36133]%N.

Record Numbers : Type := mkNumbers {
  num : Type;
  (** A numeric literal of the source. *)
  number : Z -> num;
  (** [a / b], [a > b], [a < b], [Math.abs(a)] *)
  Number_div : num -> num -> num;
  Number_gt : num -> num -> bool;
  Number_lt : num -> num -> bool;
  Math_abs : num -> num;
  (** [a.toFixed(digits)], [a.toLocaleString()] *)
  toFixed : num -> nat -> jsstring;
  toLocaleString : num -> jsstring
}.

Record Alert : Type := mkAlert { alert_message : jsstring }.

(** [a.slice(0, n)] *)
Definition slice_to {A : Type} (n : nat) (a : list A) : list A := firstn n a.

(** Line 121: the first sentence of the suggestion, up to the first
    ideographic full stop, with a full stop put back. *)
Definition shortSuggestion (suggestion : jsstring) : jsstring :=
  hd [] (split 12290 suggestion) ++ txt_full_stop.

(** Lines 105-110: the loop over the alerts that are read out. *)
Fixpoint read_alerts (total index : nat) (shown : list Alert)
  (content : jsstring) : jsstring :=
  match shown with
  | [] => content
  | alert :: rest =>
      let content := content ++ alert_message alert in
      let content :=
        if (Z.of_nat index <? Z.min (Z.of_nat total) 2 - 1)%Z
        then content ++ txt_semicolon
        else content in
      read_alerts total (S index) rest content
  end.

(** Lines 58-66: [handleAvatarSpeak], on the log of what the avatar has been
    asked to say. *)
Definition handleAvatarSpeak (status text : jsstring)
  (said : list jsstring) : list jsstring :=
  if str_eqb status (u16 "connected") then said ++ [text] else said.

Section Dashboard.

Variable numbers : Numbers.

Record Metric : Type := mkMetric {
  metric_name : jsstring;
  metric_value : num numbers;
  metric_changePercent : num numbers
}.

(** The fields of the generated data that [App.tsx] reads.  An insight or a
    suggestion that is absent is kept as the empty string, and absent alerts
    as the empty list: the code tests them for truthiness only. *)
Record AIGeneratedData : Type := mkData {
  metrics : option (list Metric);
  alerts : list Alert;
  insight : jsstring;
  suggestion : jsstring
}.

(** [metrics.find(m => m.name === name)] *)
Definition find_metric (name : jsstring) (ms : list Metric) : option Metric :=
  find (fun m => str_eqb (metric_name m) name) ms.

(** The word for the direction of a change, [up] when it is positive. *)
Definition trend (up : jsstring) (changePercent : num numbers) : jsstring :=
  if Number_gt numbers changePercent (number numbers 0) then up
  else if Number_lt numbers changePercent (number numbers 0) then txt_decline
  else txt_flat.

Definition abs_change (changePercent : num numbers) : jsstring :=
  toFixed numbers (Math_abs numbers changePercent) 2.

(** Lines 69-128. *)
Definition generateBroadcastContent (aiData : option AIGeneratedData)
  : jsstring :=
  match aiData with
  | None => txt_no_data
  | Some data =>
      match metrics data with
      | None => txt_no_data
      | Some ms =>
          let revenue := find_metric name_revenue ms in
          let margin := find_metric name_margin ms in
          let users := find_metric name_users ms in
          let orders := find_metric name_orders ms in
          let content := txt_intro in
          let content :=
            match revenue with
            | Some revenue =>
                let revenueWan :=
                  toFixed numbers
                    (Number_div numbers (metric_value revenue)
                       (number numbers 10000)) 0 in
                content ++ txt_revenue_is ++ revenueWan ++ txt_wan_yuan_vs
                ++ trend txt_growth (metric_changePercent revenue)
                ++ abs_change (metric_changePercent revenue)
                ++ txt_percent_stop
            | None => content
            end in
          let content :=
            match margin with
            | Some margin =>
                content ++ txt_margin_is
                ++ toFixed numbers (metric_value margin) 2 ++ txt_percent_vs
                ++ trend txt_rise (metric_changePercent margin)
                ++ abs_change (metric_changePercent margin)
                ++ txt_points_stop
            | None => content
            end in
          let content :=
            match users with
            | Some users =>
                content ++ txt_users_is
                ++ toLocaleString numbers (metric_value users)
                ++ txt_people_vs
                ++ trend txt_growth (metric_changePercent users)
                ++ abs_change (metric_changePercent users)
                ++ txt_percent_stop
            | None => content
            end in
          let content :=
            match orders with
            | Some orders =>
                content ++ txt_orders_is
                ++ toLocaleString numbers (metric_value orders)
                ++ txt_orders_vs
                ++ trend txt_growth (metric_changePercent orders)
                ++ abs_change (metric_changePercent orders)
                ++ txt_percent_stop
            | None => content
            end in
          let content :=
            match alerts data with
            | [] => content
            | _ :: _ =>
                let content := content ++ txt_attention in
                let content :=
                  read_alerts (length (alerts data)) 0
                    (slice_to 2 (alerts data)) content in
                content ++ txt_full_stop
            end in
          let content :=
            match insight data with
            | [] => content
            | _ :: _ => content ++ insight data
            end in
          let content :=
            match suggestion data with
            | [] => content
            | _ :: _ => content ++ shortSuggestion (suggestion data)
            end in
          content ++ txt_outro
      end
  end.

(** What [setTimeout] has scheduled: the reset of the speaking flag 30 s
    after a broadcast, and the announcement 1 s after a generation, which
    goes through the [handleAvatarSpeak] of the render that started the
    generation. *)
Inductive Timer : Type :=
| ResetSpeaking
| Announce (status text : jsstring).

(** A call of [generateData] that awaits the data service, with what it
    captured from the render that started it. *)
Record Generation : Type := mkGeneration {
  gen_speak : bool;
  gen_status : jsstring
}.

Record DataRequest : Type := mkDataRequest {
  dr_scenario : jsstring;
  dr_previousData : option (option (list Metric))
}.

(** The state of [App] that the handlers below use, the avatar status that
    the store provides, and beside them what has left the component: the
    requests to the data service, the pending timers, the calls in flight
    and what the avatar has been asked to say. *)
Record App : Type := mkApp {
  status : jsstring;
  currentScenario : jsstring;
  aiData : option AIGeneratedData;
  previousData : option AIGeneratedData;
  lastDataRef : option AIGeneratedData;
  isGeneratingData : bool;
  dataError : jsstring;
  lastUpdateTime : option Z;
  isSpeaking : bool;
  said : list jsstring;
  data_requests : list DataRequest;
  generating : list Generation;
  timers : list Timer
}.

(** The component as it is mounted (lines 25-37), with the avatar in the
    given status. *)
Definition mounted (avatar : jsstring) : App :=
  mkApp avatar (u16 "normal") None None None false [] None false
    [] [] [] [].

(** Lines 131-142: [handleBroadcast]. *)
Definition handleBroadcast (app : App) : App :=
  if isSpeaking app then app
  else
    let content := generateBroadcastContent (aiData app) in
    mkApp (status app) (currentScenario app) (aiData app) (previousData app)
      (lastDataRef app) (isGeneratingData app) (dataError app)
      (lastUpdateTime app) true
      (handleAvatarSpeak (status app) content (said app))
      (data_requests app) (generating app) (timers app ++ [ResetSpeaking]).

(** Lines 145-154: [generateData] up to the call of the data service. *)
Definition generateData (scenario : jsstring) (speak : bool) (app : App)
  : App :=
  let request :=
    mkDataRequest scenario
      match previousData app with
      | Some previous => Some (metrics previous)
      | None => None
      end in
  mkApp (status app) (currentScenario app) (aiData app) (previousData app)
    (lastDataRef app) true [] (lastUpdateTime app) (isSpeaking app)
    (said app) (data_requests app ++ [request])
    (generating app ++ [mkGeneration speak (status app)]) (timers app).

(** Lines 179-182: [handleScenarioChange]. *)
Definition handleScenarioChange (scenario : jsstring) (app : App) : App :=
  generateData scenario true
    (mkApp (status app) scenario (aiData app) (previousData app)
       (lastDataRef app) (isGeneratingData app) (dataError app)
       (lastUpdateTime app) (isSpeaking app) (said app) (data_requests app)
       (generating app) (timers app)).

(** What the data service answers. *)
Inductive Outcome : Type :=
| Generated (data : AIGeneratedData) (now : Z)
| Failed (error : JSError).

(** Lines 156-176: [generateData] resumed with the answer. *)
Definition generateData_settled (call : Generation) (o : Outcome)
  (app : App) : App :=
  match o with
  | Generated data now =>
      mkApp (status app) (currentScenario app) (Some data)
        match lastDataRef app with
        | Some last => Some last
        | None => previousData app
        end
        (Some data) false (dataError app) (Some now) (isSpeaking app)
        (said app) (data_requests app) (generating app)
        match gen_speak call, insight data with
        | true, _ :: _ =>
            timers app ++
            [Announce (gen_status call) (txt_data_updated ++ insight data)]
        | _, _ => timers app
        end
  | Failed error =>
      mkApp (status app) (currentScenario app) (aiData app)
        (previousData app) (lastDataRef app) false
        match message error with
        | [] => txt_generation_failed
        | m => m
        end
        (lastUpdateTime app) (isSpeaking app) (said app)
        (data_requests app) (generating app) (timers app)
  end.

(** A timer that fires. *)
Definition fire (t : Timer) (app : App) : App :=
  match t with
  | ResetSpeaking =>
      mkApp (status app) (currentScenario app) (aiData app)
        (previousData app) (lastDataRef app) (isGeneratingData app)
        (dataError app) (lastUpdateTime app) false (said app)
        (data_requests app) (generating app) (timers app)
  | Announce captured text =>
      mkApp (status app) (currentScenario app) (aiData app)
        (previousData app) (lastDataRef app) (isGeneratingData app)
        (dataError app) (lastUpdateTime app) (isSpeaking app)
        (handleAvatarSpeak captured text (said app))
        (data_requests app) (generating app) (timers app)
  end.

(** The list without its [i]-th element. *)
Fixpoint remove_nth {A : Type} (i : nat) (l : list A) : list A :=
  match l, i with
  | [], _ => []
  | _ :: rest, O => rest
  | x :: rest, S i => x :: remove_nth i rest
  end.

(** What happens to the dashboard: the avatar store reports a status, the
    keys become configured (lines 184-188), the user picks a scenario or
    asks for a broadcast, the data service answers the [i]-th call in
    flight, the [i]-th pending timer fires. *)
Inductive AppEvent : Type :=
| StatusChanged (s : jsstring)
| Configured
| ScenarioPicked (scenario : jsstring)
| BroadcastClicked
| Settled (i : nat) (o : Outcome)
| Fired (i : nat).

Definition app_step (app : App) (e : AppEvent) : App :=
  match e with
  | StatusChanged s =>
      mkApp s (currentScenario app) (aiData app) (previousData app)
        (lastDataRef app) (isGeneratingData app) (dataError app)
        (lastUpdateTime app) (isSpeaking app) (said app)
        (data_requests app) (generating app) (timers app)
  | Configured => generateData (u16 "normal") false app
  | ScenarioPicked scenario => handleScenarioChange scenario app
  | BroadcastClicked => handleBroadcast app
  | Settled i o =>
      match nth_error (generating app) i with
      | Some call =>
          generateData_settled call o
            (mkApp (status app) (currentScenario app) (aiData app)
               (previousData app) (lastDataRef app) (isGeneratingData app)
               (dataError app) (lastUpdateTime app) (isSpeaking app)
               (said app) (data_requests app)
               (remove_nth i (generating app)) (timers app))
      | None => app
      end
  | Fired i =>
      match nth_error (timers app) i with
      | Some t =>
          fire t
            (mkApp (status app) (currentScenario app) (aiData app)
               (previousData app) (lastDataRef app) (isGeneratingData app)
               (dataError app) (lastUpdateTime app) (isSpeaking app)
               (said app) (data_requests app) (generating app)
               (remove_nth i (timers app)))
      | None => app
      end
  end.

Definition app_run (app : App) (events : list AppEvent) : App :=
  fold_left app_step events app.

(** One generation from the click to the data: the scenario is picked and
    the data service answers at once. *)
Definition generation_cycle (g : jsstring * AIGeneratedData * Z)
  : list AppEvent :=
  let '(scenario, data, now) := g in
  [ScenarioPicked scenario; Settled 0 (Generated data now)].

Definition is_reset (t : Timer) : bool :=
  match t with
  | ResetSpeaking => true
  | Announce _ _ => false
  end.

(** A timer, and an event, that involves no avatar found connected. *)
Definition quiet_timer (t : Timer) : bool :=
  match t with
  | ResetSpeaking => true
  | Announce captured _ => negb (str_eqb captured (u16 "connected"))
  end.

Definition quiet_generation (g : Generation) : bool :=
  negb (str_eqb (gen_status g) (u16 "connected")).

Definition quiet_event (e : AppEvent) : bool :=
  match e with
  | StatusChanged s => negb (str_eqb s (u16 "connected"))
  | _ => true
  end.

(** The four metrics that the broadcast reads out. *)
Definition is_broadcast_metric (m : Metric) : bool :=
  str_eqb (metric_name m) name_revenue || str_eqb (metric_name m) name_margin
  || str_eqb (metric_name m) name_users || str_eqb (metric_name m) name_orders.

End Dashboard.

Arguments metric_name {numbers} _.
Arguments metric_value {numbers} _.
Arguments metric_changePercent {numbers} _.
Arguments metrics {numbers} _.
Arguments alerts {numbers} _.
Arguments insight {numbers} _.
Arguments suggestion {numbers} _.
Arguments dr_scenario {numbers} _.
Arguments dr_previousData {numbers} _.
Arguments status {numbers} _.
Arguments currentScenario {numbers} _.
Arguments aiData {numbers} _.
Arguments previousData {numbers} _.
Arguments lastDataRef {numbers} _.
Arguments isGeneratingData {numbers} _.
Arguments dataError {numbers} _.
Arguments lastUpdateTime {numbers} _.
Arguments isSpeaking {numbers} _.
Arguments said {numbers} _.
Arguments data_requests {numbers} _.
Arguments generating {numbers} _.
Arguments timers {numbers} _.
Arguments Generated {numbers} data now.
Arguments Failed {numbers} error.
Arguments StatusChanged {numbers} s.
Arguments Configured {numbers}.
Arguments ScenarioPicked {numbers} scenario.
Arguments BroadcastClicked {numbers}.
Arguments Settled {numbers} i o.
Arguments Fired {numbers} i.
Arguments handleBroadcast {numbers} app.
Arguments generateData {numbers} scenario speak app.
Arguments handleScenarioChange {numbers} scenario app.
Arguments generateData_settled {numbers} call o app.
Arguments fire {numbers} t app.
Arguments app_step {numbers} app e.
Arguments app_run {numbers} app events.
Arguments generation_cycle {numbers} g.
Arguments is_broadcast_metric {numbers} m.
Arguments quiet_event {numbers} e.

(** Numbers that are integers, for the examples: the division is the
    quotient, which is the host's result when there is no remainder, and
    [toLocaleString] groups the digits by three. *)
Fixpoint uint_digits (u : Decimal.uint) : jsstring :=
  match u with
  | Decimal.Nil => []
  | Decimal.D0 u => 48%N :: uint_digits u
  | Decimal.D1 u => 49%N :: uint_digits u
  | Decimal.D2 u => 50%N :: uint_digits u
  | Decimal.D3 u => 51%N :: uint_digits u
  | Decimal.D4 u => 52%N :: uint_digits u
  | Decimal.D5 u => 53%N :: uint_digits u
  | Decimal.D6 u => 54%N :: uint_digits u
  | Decimal.D7 u => 55%N :: uint_digits u
  | Decimal.D8 u => 56%N :: uint_digits u
  | Decimal.D9 u => 57%N :: uint_digits u
  end.

Definition integer_digits (z : Z) : jsstring :=
  uint_digits (N.to_uint (Z.abs_N z)).

Definition integer_sign (z : Z) : jsstring :=
  if (z <? 0)%Z then [45%N] else [].

(** The digits with a comma before every group of three from the right. *)
Fixpoint group_digits (ds : jsstring) : jsstring :=
  match ds with
  | [] => []
  | d :: rest =>
      d :: (if (0 <? length rest) && (length rest mod 3 =? 0)
            then 44%N :: group_digits rest
            else group_digits rest)
  end.

Definition integer_numbers : Numbers :=
  mkNumbers Z (fun z => z) Z.quot Z.gtb Z.ltb Z.abs
    (fun z digits =>
       integer_sign z ++ integer_digits z ++
       match digits with
       | O => []
       | S _ => 46%N :: repeat 48%N digits
       end)
    (fun z => integer_sign z ++ group_digits (integer_digits z)).

(** ** Sample data for the dashboard *)

Definition network_error : JSError :=
  mkError (u16 "TypeError") (u16 "Failed to fetch").

Definition sample_data : AIGeneratedData integer_numbers :=
  mkData integer_numbers
    (Some [mkMetric integer_numbers name_users 1234567%Z (-3)%Z;
           mkMetric integer_numbers name_revenue 5230000%Z 12%Z;
           mkMetric integer_numbers (u16 "other") 5%Z 0%Z])
    [mkAlert (u16 "A1"); mkAlert (u16 "A2"); mkAlert (u16 "A3")]
    (u16 "Insight.")
    (u16 "First" ++ [12290%N] ++ u16 "Second" ++ [12290%N]).

(** * Properties of the reference parser

    The fuel that [Json.parse] supplies is never exhausted: a text that it
    rejects is rejected for its syntax. *)

Module JsonProperties.
Import Json.

Ltac ok_inv H := injection H as _ <-.

Lemma skip_ws_length (s : jsstring) : length (skip_ws s) <= length s.
Proof.
  induction s as [|c s IH]; cbn [skip_ws]; [lia|].
  destruct (is_ws c); cbn [length]; lia.
Qed.

Lemma parse_chars_length (s : jsstring) :
  forall str r, parse_chars s = Some (str, r) -> length r < length s.
Proof.
  induction s as [s IH] using (well_founded_induction
    (Wf_nat.well_founded_ltof _ (@length N))).
  unfold Wf_nat.ltof in IH.
  intros str r. destruct s as [|c rest]; cbn [parse_chars]; [discriminate|].
  destruct (c =? 34)%N.
  { intros H. injection H as _ <-. cbn [length]. lia. }
  destruct (c =? 92)%N.
  { destruct rest as [|e rest1]; [discriminate|].
    destruct (e =? 117)%N.
    - destruct rest1 as [|h1 [|h2 [|h3 [|h4 rest2]]]]; try discriminate.
      destruct (hex_digit h1), (hex_digit h2), (hex_digit h3), (hex_digit h4);
        try discriminate.
      destruct (parse_chars rest2) as [[str' r']|] eqn:E; [|discriminate].
      intros H. injection H as _ <-.
      apply IH in E; cbn [length] in *; lia.
    - destruct (escape e); [|discriminate].
      destruct (parse_chars rest1) as [[str' r']|] eqn:E; [|discriminate].
      intros H. injection H as _ <-.
      apply IH in E; cbn [length] in *; lia. }
  destruct (c <? 32)%N; [discriminate|].
  destruct (parse_chars rest) as [[str' r']|] eqn:E; [|discriminate].
  intros H. injection H as _ <-.
  apply IH in E; cbn [length] in *; lia.
Qed.

Lemma digits_length (s : jsstring) :
  length (snd (digits s)) <= length s.
Proof.
  induction s as [|c s IH]; cbn [digits]; [cbn; lia|].
  destruct (is_digit c); [|cbn; lia].
  destruct (digits s) as [ds r]. cbn [snd length] in *. lia.
Qed.

Lemma take_sign_length (s : jsstring) :
  length (snd (take_sign s)) <= length s.
Proof.
  destruct s as [|c r]; [cbn; lia|].
  cbn [take_sign]. destruct (c =? 45)%N; cbn; lia.
Qed.

Lemma take_int_length (s int r : jsstring) :
  take_int s = Some (int, r) -> length r <= length s.
Proof.
  destruct s as [|d s']; [discriminate|]. cbn [take_int].
  destruct (is_digit d); [|discriminate].
  destruct (d =? 48)%N; [intros H; ok_inv H; cbn; lia|].
  pose proof (digits_length s') as Hd. destruct (digits s') as [ds r'].
  intros H. ok_inv H. cbn [snd length] in *. lia.
Qed.

Lemma take_frac_length (s frac r : jsstring) :
  take_frac s = Some (frac, r) -> length r <= length s.
Proof.
  destruct s as [|p s']; [intros H; ok_inv H; lia|]. cbn [take_frac].
  destruct (p =? 46)%N; [|intros H; ok_inv H; lia].
  pose proof (digits_length s') as Hd.
  destruct (digits s') as [[|d ds] r']; [discriminate|].
  intros H. ok_inv H. cbn [snd length] in *. lia.
Qed.

Lemma take_exp_length (s exp r : jsstring) :
  take_exp s = Some (exp, r) -> length r <= length s.
Proof.
  destruct s as [|e s']; [intros H; ok_inv H; lia|]. cbn [take_exp].
  destruct ((e =? 101) || (e =? 69))%N; [|intros H; ok_inv H; lia].
  destruct s' as [|g s''].
  - cbn [digits]. discriminate.
  - destruct ((g =? 43) || (g =? 45))%N.
    + pose proof (digits_length s'') as Hd.
      destruct (digits s'') as [[|d ds] r']; [discriminate|].
      intros H. ok_inv H. cbn [snd length] in *. lia.
    + pose proof (digits_length (g :: s'')) as Hd.
      destruct (digits (g :: s'')) as [[|d ds] r']; [discriminate|].
      intros H. ok_inv H. cbn [snd length] in *. lia.
Qed.

Lemma parse_number_length (s literal r : jsstring) :
  parse_number s = Some (literal, r) -> length r <= length s.
Proof.
  unfold parse_number. pose proof (take_sign_length s) as Hsign.
  destruct (take_sign s) as [sign s1]. cbn [snd] in Hsign.
  destruct (take_int s1) as [[int s2]|] eqn:Eint; [|discriminate].
  destruct (take_frac s2) as [[frac s3]|] eqn:Efrac; [|discriminate].
  destruct (take_exp s3) as [[exp s4]|] eqn:Eexp; [|discriminate].
  intros H. ok_inv H.
  apply take_int_length in Eint. apply take_frac_length in Efrac.
  apply take_exp_length in Eexp. lia.
Qed.

Lemma parse_rest_length (fuel : nat) :
  (forall s v r, parse_value fuel s = Ok v r -> length r <= length s) /\
  (forall s vs r, parse_elements fuel s = Ok vs r -> length r <= length s) /\
  (forall s ms r, parse_members fuel s = Ok ms r -> length r <= length s).
Proof.
  induction fuel as [|fuel (IHv & IHe & IHm)]; [repeat split; discriminate|].
  repeat split.
  - intros s v r. cbn [parse_value]. destruct s as [|c r0]; [discriminate|].
    destruct (c =? 34)%N.
    { destruct (parse_chars r0) as [[str rest]|] eqn:E; [|discriminate].
      intros H. ok_inv H. apply parse_chars_length in E. cbn [length]. lia. }
    destruct (c =? 123)%N.
    { pose proof (skip_ws_length r0) as Hws.
      destruct (skip_ws r0) as [|c' rest]; [discriminate|].
      destruct (c' =? 125)%N; [intros H; ok_inv H; cbn [length] in *; lia|].
      destruct (parse_members fuel (c' :: rest)) as [props rest'| |] eqn:E;
        try discriminate.
      intros H. ok_inv H. apply IHm in E. cbn [length] in *. lia. }
    destruct (c =? 91)%N.
    { pose proof (skip_ws_length r0) as Hws.
      destruct (skip_ws r0) as [|c' rest]; [discriminate|].
      destruct (c' =? 93)%N; [intros H; ok_inv H; cbn [length] in *; lia|].
      destruct (parse_elements fuel (c' :: rest)) as [elts rest'| |] eqn:E;
        try discriminate.
      intros H. ok_inv H. apply IHe in E. cbn [length] in *. lia. }
    destruct (startsWith (c :: r0) (u16 "true"));
      [intros H; ok_inv H; pose proof (length_skipn 4 (c :: r0));
       cbn [skipn length] in *; lia|].
    destruct (startsWith (c :: r0) (u16 "false"));
      [intros H; ok_inv H; pose proof (length_skipn 5 (c :: r0));
       cbn [skipn length] in *; lia|].
    destruct (startsWith (c :: r0) (u16 "null"));
      [intros H; ok_inv H; pose proof (length_skipn 4 (c :: r0));
       cbn [skipn length] in *; lia|].
    destruct (parse_number (c :: r0)) as [[lit rest]|] eqn:E; [|discriminate].
    intros H. ok_inv H. now apply parse_number_length in E.
  - intros s vs r. cbn [parse_elements].
    destruct (parse_value fuel s) as [v rest| |] eqn:E; try discriminate.
    apply IHv in E. pose proof (skip_ws_length rest) as Hws.
    destruct (skip_ws rest) as [|c rest']; [discriminate|].
    destruct (c =? 93)%N; [intros H; ok_inv H; cbn [length] in *; lia|].
    destruct (c =? 44)%N; [|discriminate].
    destruct (parse_elements fuel (skip_ws rest')) as [vs' rest''| |] eqn:E';
      try discriminate.
    intros H. ok_inv H. apply IHe in E'.
    pose proof (skip_ws_length rest'). cbn [length] in *. lia.
  - intros s ms r. cbn [parse_members]. destruct s as [|q r0]; [discriminate|].
    destruct (q =? 34)%N; [|discriminate].
    destruct (parse_chars r0) as [[key rest]|] eqn:E; [|discriminate].
    apply parse_chars_length in E. pose proof (skip_ws_length rest) as Hws.
    destruct (skip_ws rest) as [|colon rest1]; [discriminate|].
    destruct (colon =? 58)%N; [|discriminate].
    destruct (parse_value fuel (skip_ws rest1)) as [v rest2| |] eqn:E2;
      try discriminate.
    apply IHv in E2. pose proof (skip_ws_length rest1) as Hws1.
    pose proof (skip_ws_length rest2) as Hws2.
    destruct (skip_ws rest2) as [|c rest3]; [discriminate|].
    destruct (c =? 125)%N; [intros H; ok_inv H; cbn [length] in *; lia|].
    destruct (c =? 44)%N; [|discriminate].
    destruct (parse_members fuel (skip_ws rest3)) as [ms' rest4| |] eqn:E3;
      try discriminate.
    intros H. ok_inv H. apply IHm in E3.
    pose proof (skip_ws_length rest3). cbn [length] in *. lia.
Qed.

Lemma parse_fuel_enough (fuel : nat) :
  (forall s, 2 * length s < fuel -> parse_value fuel s <> OutOfFuel) /\
  (forall s, 2 * length s + 1 < fuel -> parse_elements fuel s <> OutOfFuel) /\
  (forall s, 2 * length s + 1 < fuel -> parse_members fuel s <> OutOfFuel).
Proof.
  induction fuel as [|fuel (IHv & IHe & IHm)]; [repeat split; intros; lia|].
  repeat split.
  - intros s Hs. cbn [parse_value]. destruct s as [|c r0]; [discriminate|].
    cbn [length] in Hs.
    destruct (c =? 34)%N; [destruct (parse_chars r0) as [[]|]; discriminate|].
    destruct (c =? 123)%N.
    { pose proof (skip_ws_length r0) as Hws.
      destruct (skip_ws r0) as [|c' rest]; [discriminate|].
      destruct (c' =? 125)%N; [discriminate|].
      destruct (parse_members fuel (c' :: rest)) eqn:E; try discriminate.
      apply IHm in E; [contradiction|]. cbn [length] in *. lia. }
    destruct (c =? 91)%N.
    { pose proof (skip_ws_length r0) as Hws.
      destruct (skip_ws r0) as [|c' rest]; [discriminate|].
      destruct (c' =? 93)%N; [discriminate|].
      destruct (parse_elements fuel (c' :: rest)) eqn:E; try discriminate.
      apply IHe in E; [contradiction|]. cbn [length] in *. lia. }
    destruct (startsWith (c :: r0) (u16 "true")); [discriminate|].
    destruct (startsWith (c :: r0) (u16 "false")); [discriminate|].
    destruct (startsWith (c :: r0) (u16 "null")); [discriminate|].
    destruct (parse_number (c :: r0)) as [[]|]; discriminate.
  - intros s Hs. cbn [parse_elements].
    destruct (parse_value fuel s) as [v rest| |] eqn:E; try discriminate.
    + apply (proj1 (parse_rest_length fuel)) in E.
      pose proof (skip_ws_length rest) as Hws.
      destruct (skip_ws rest) as [|c rest']; [discriminate|].
      destruct (c =? 93)%N; [discriminate|].
      destruct (c =? 44)%N; [|discriminate].
      destruct (parse_elements fuel (skip_ws rest')) eqn:E'; try discriminate.
      apply IHe in E'; [contradiction|].
      pose proof (skip_ws_length rest'). cbn [length] in *. lia.
    + apply IHv in E; [contradiction|lia].
  - intros s Hs. cbn [parse_members]. destruct s as [|q r0]; [discriminate|].
    cbn [length] in Hs.
    destruct (q =? 34)%N; [|discriminate].
    destruct (parse_chars r0) as [[key rest]|] eqn:E; [|discriminate].
    apply parse_chars_length in E. pose proof (skip_ws_length rest) as Hws.
    destruct (skip_ws rest) as [|colon rest1]; [discriminate|].
    destruct (colon =? 58)%N; [|discriminate].
    pose proof (skip_ws_length rest1) as Hws1.
    destruct (parse_value fuel (skip_ws rest1)) as [v rest2| |] eqn:E2;
      try discriminate.
    + apply (proj1 (parse_rest_length fuel)) in E2.
      pose proof (skip_ws_length rest2) as Hws2.
      destruct (skip_ws rest2) as [|c rest3]; [discriminate|].
      destruct (c =? 125)%N; [discriminate|].
      destruct (c =? 44)%N; [|discriminate].
      destruct (parse_members fuel (skip_ws rest3)) eqn:E3; try discriminate.
      apply IHm in E3; [contradiction|].
      pose proof (skip_ws_length rest3). cbn [length] in *. lia.
    + apply IHv in E2; [contradiction|]. cbn [length] in *. lia.
Qed.

Theorem parse_text_fuel (text : jsstring) :
  parse_text (JSON_parse_fuel text) text <> OutOfFuel.
Proof.
  unfold parse_text, JSON_parse_fuel.
  destruct (parse_value (S (2 * length text)) (skip_ws text))
    as [v rest| |] eqn:E.
  - destruct (skip_ws rest); discriminate.
  - discriminate.
  - apply (proj1 (parse_fuel_enough _)) in E; [contradiction|].
    pose proof (skip_ws_length text). lia.
Qed.

End JsonProperties.

(** * Properties of the decoder *)

Lemma last_app_nonempty (A : Type) (l l' : list A) (d : A) :
  l' <> [] -> last (l ++ l') d = last l' d.
Proof.
  intros Hne. induction l as [|x l IH]; simpl; [reflexivity|].
  rewrite IH. destruct (l ++ l') eqn:E; [|reflexivity].
  apply app_eq_nil in E. destruct E as [_ E]. contradiction.
Qed.

Lemma split_not_nil (sep : N) (s : jsstring) : split sep s <> [].
Proof.
  destruct s as [|c s]; simpl; [discriminate|].
  destruct (c =? sep)%N; [discriminate|].
  destruct (split sep s); discriminate.
Qed.

(** Splitting a text in two pieces: the complete lines of the first piece,
    then the split of what the second piece adds to its unfinished line. *)
Lemma split_app (sep : N) (a b : jsstring) :
  split sep (a ++ b) =
  removelast (split sep a) ++ split sep (last (split sep a) [] ++ b).
Proof.
  induction a as [|c a IH]; [reflexivity|].
  cbn [app split]. destruct (c =? sep)%N eqn:E.
  - rewrite IH. pose proof (split_not_nil sep a) as Hne.
    destruct (split sep a) as [|l ls]; [contradiction|]. reflexivity.
  - rewrite IH. pose proof (split_not_nil sep a) as Hne.
    destruct (split sep a) as [|l ls]; [contradiction|].
    destruct ls as [|l2 ls]; [|reflexivity].
    cbn [removelast last app split]. now rewrite E.
Qed.

Lemma split_no_sep (sep : N) (s : jsstring) :
  ~ In sep s -> split sep s = [s].
Proof.
  induction s as [|c s IH]; intros Hs; [reflexivity|].
  cbn [split]. destruct (c =? sep)%N eqn:E.
  - apply N.eqb_eq in E. subst c. elim Hs. now left.
  - rewrite IH; [reflexivity|]. intros Hin. apply Hs. now right.
Qed.

Lemma split_line (sep : N) (line rest : jsstring) :
  ~ In sep line -> split sep (line ++ sep :: rest) = line :: split sep rest.
Proof.
  induction line as [|c line IH]; intros Hline; cbn [app split].
  - now rewrite N.eqb_refl.
  - destruct (c =? sep)%N eqn:E.
    + apply N.eqb_eq in E. subst c. elim Hline. now left.
    + rewrite IH; [reflexivity|]. intros Hin. apply Hline. now right.
Qed.

(** The piece retained in the buffer holds no newline. *)
Lemma last_split_no_sep (sep : N) (s : jsstring) :
  ~ In sep (last (split sep s) []).
Proof.
  induction s as [|c s IH]; [intros []|].
  cbn [split]. pose proof (split_not_nil sep s) as Hne.
  destruct (c =? sep)%N eqn:E.
  - destruct (split sep s) as [|l ls]; [contradiction|]. exact IH.
  - destruct (split sep s) as [|l ls]; [contradiction|].
    destruct ls as [|l2 ls]; [|exact IH].
    cbn [last] in *. intros [Hc|Hin]; [|now apply IH].
    subst c. now rewrite N.eqb_refl in E.
Qed.

Lemma feed_lines_app (buffer a b : jsstring) :
  feed_lines buffer (a ++ b) =
  (fst (feed_lines buffer a) ++ fst (feed_lines (snd (feed_lines buffer a)) b),
   snd (feed_lines (snd (feed_lines buffer a)) b)).
Proof.
  unfold feed_lines, pop. cbn [fst snd].
  rewrite app_assoc, split_app.
  pose proof (split_not_nil LF (last (split LF (buffer ++ a)) [] ++ b)) as Hne.
  now rewrite removelast_app, last_app_nonempty.
Qed.

Lemma feed_lines_no_LF (buffer : jsstring) :
  ~ In LF buffer -> feed_lines buffer [] = ([], buffer).
Proof.
  intros Hb. unfold feed_lines, pop.
  now rewrite app_nil_r, (split_no_sep _ _ Hb).
Qed.

Lemma feed_lines_buffer_no_LF (buffer text : jsstring) :
  ~ In LF (snd (feed_lines buffer text)).
Proof. apply last_split_no_sep. Qed.

Section DecoderProperties.

Variable host : Host.

Lemma decode_lines_app (l1 l2 : list jsstring) :
  decode_lines host (l1 ++ l2) = decode_lines host l1 ++ decode_lines host l2.
Proof.
  induction l1 as [|line l1 IH]; [reflexivity|].
  cbn [app decode_lines]. rewrite IH.
  now destruct (decode_line host line).
Qed.

Lemma feed_eq (buffer text : jsstring) :
  feed host buffer text =
  (decode_lines host (fst (feed_lines buffer text)),
   snd (feed_lines buffer text)).
Proof. unfold feed. now destruct (feed_lines buffer text). Qed.

Lemma feed_all_cons (buffer text : jsstring) (rest : list jsstring) :
  feed_all host buffer (text :: rest) =
  (fst (feed host buffer text)
     ++ fst (feed_all host (snd (feed host buffer text)) rest),
   snd (feed_all host (snd (feed host buffer text)) rest)).
Proof.
  cbn [feed_all]. destruct (feed host buffer text) as [fs b'].
  cbn [fst snd]. now destruct (feed_all host b' rest).
Qed.

(** Feeding chunks one by one amounts to feeding their concatenation. *)
Lemma feed_all_concat (texts : list jsstring) :
  forall buffer, ~ In LF buffer ->
  feed_all host buffer texts = feed host buffer (concat texts).
Proof.
  induction texts as [|text texts IH]; intros buffer Hb.
  - cbn [feed_all concat]. now rewrite feed_eq, feed_lines_no_LF.
  - rewrite feed_all_cons, IH.
    + cbn [concat]. rewrite !feed_eq, feed_lines_app. cbn [fst snd].
      now rewrite decode_lines_app.
    + rewrite feed_eq. apply feed_lines_buffer_no_LF.
Qed.

End DecoderProperties.

(** * Properties of the component *)

Lemma last_message_snoc (pre : list ChatMessage) (m : ChatMessage) :
  last_message (pre ++ [m]) = Some m.
Proof.
  unfold last_message. rewrite length_app. cbn [length].
  replace (length pre + 1 - 1) with (length pre) by lia.
  rewrite nth_error_app2 by lia. now rewrite Nat.sub_diag.
Qed.

Lemma update_last_assistant (f : jsstring -> jsstring)
  (pre : list ChatMessage) (old : jsstring) (t : Z) :
  update_last f (pre ++ [mkMessage assistant old t]) =
  pre ++ [mkMessage assistant (f old) t].
Proof.
  unfold update_last. rewrite last_message_snoc. cbn [role content timestamp].
  now rewrite removelast_last.
Qed.

Lemma update_last_user (f : jsstring -> jsstring)
  (pre : list ChatMessage) (m : ChatMessage) :
  role m = user -> update_last f (pre ++ [m]) = pre ++ [m].
Proof.
  intros Hm. unfold update_last. now rewrite last_message_snoc, Hm.
Qed.

(** Every transcript is empty, or ends with a user entry, or ends with an
    assistant entry. *)
Lemma transcript_cases (ms : list ChatMessage) :
  ms = [] \/
  (exists pre m, ms = pre ++ [m] /\ role m = user) \/
  (exists pre old t, ms = pre ++ [mkMessage assistant old t]).
Proof.
  induction ms as [|m pre _] using rev_ind; [now left|right].
  destruct m as [[] old t].
  - left. now exists pre, (mkMessage user old t).
  - right. now exists pre, old, t.
Qed.

Section ComponentProperties.

Variable host : Host.

Lemma apply_frames_app (c : Closure) (fs1 fs2 : list Frame) (box : ChatBox) :
  apply_frames host c (fs1 ++ fs2) box =
  apply_frames host c fs2 (apply_frames host c fs1 box).
Proof. apply fold_left_app. Qed.

Lemma process_lines_frames (c : Closure) (lines : list jsstring) :
  forall box,
  process_lines host c lines box =
  apply_frames host c (decode_lines host lines) box.
Proof.
  induction lines as [|line lines IH]; intros box; [reflexivity|].
  cbn [process_lines fold_left decode_lines]. unfold process_line at 2.
  destruct (decode_line host line) as [f|]; apply IH.
Qed.

Lemma run_app (st : ChatBox * Call) (es1 es2 : list Event) :
  run host st (es1 ++ es2) = run host (run host st es1) es2.
Proof. apply fold_left_app. Qed.

Lemma run_cons (st : ChatBox * Call) (e : Event) (es : list Event) :
  run host st (e :: es) = run host (step host st e) es.
Proof. reflexivity. Qed.

Lemma step_chunk (c : Closure) (buffer text : jsstring) (box : ChatBox) :
  step host (box, AwaitRead c buffer) (chunk text) =
  (apply_frames host c (fst (feed host buffer text)) box,
   AwaitRead c (snd (feed host buffer text))).
Proof.
  cbn [step chunk resume_read]. rewrite feed_eq.
  destruct (feed_lines buffer text) as [lines buffer'].
  cbn [fst snd]. now rewrite process_lines_frames.
Qed.

(** The read loop over a script of chunks applies the frames of the
    decoder, in order, and keeps its buffer. *)
Lemma run_chunks (c : Closure) (texts : list jsstring) :
  forall buffer box,
  run host (box, AwaitRead c buffer) (chunks texts) =
  (apply_frames host c (fst (feed_all host buffer texts)) box,
   AwaitRead c (snd (feed_all host buffer texts))).
Proof.
  induction texts as [|text texts IH]; intros buffer box; [reflexivity|].
  cbn [chunks map]. rewrite run_cons, step_chunk.
  fold (chunks texts). rewrite IH, feed_all_cons. cbn [fst snd].
  now rewrite apply_frames_app.
Qed.

(** C1.  Chunk-split invariance: however a stream text is cut into chunks,
    the decoder yields the frames, and retains the buffer, that it yields for
    the text fed as one chunk; and the read loop leaves the component and the
    call in the same state either way. *)
Theorem chunk_split_invariance (c : Closure) (box : ChatBox)
  (texts : list jsstring) :
  feed_all host [] texts = feed_all host [] [concat texts] /\
  run host (box, AwaitRead c []) (chunks texts) =
  run host (box, AwaitRead c []) (chunks [concat texts]).
Proof.
  assert (E : feed_all host [] texts = feed_all host [] [concat texts]).
  { rewrite !feed_all_concat by (intros []).
    cbn [concat]. now rewrite app_nil_r. }
  split; [exact E|]. now rewrite !run_chunks, E.
Qed.

Lemma update_last_same (ms : list ChatMessage) :
  update_last (fun old => old) ms = ms.
Proof.
  destruct (transcript_cases ms)
    as [E|[(pre & m & E & Hm)|(pre & old & t & E)]];
    rewrite E.
  - reflexivity.
  - now rewrite update_last_user.
  - now rewrite update_last_assistant.
Qed.

Lemma messages_apply_content (c : Closure) (data : JSValue) (box : ChatBox) :
  messages (apply_frame host c (FContent data) box) =
  match ToString host data with
  | Some text => update_last (fun old => old ++ text) (messages box)
  | None => messages box
  end.
Proof. cbn [apply_frame]. now destruct (ToString host data). Qed.

Lemma messages_apply_end (c : Closure) (box : ChatBox) :
  messages (apply_frame host c FEnd box) = messages box.
Proof.
  cbn [apply_frame]. destruct (last_message (c_messages c)) as [m|];
    [|reflexivity].
  destruct (content m); [reflexivity|]. now destruct (c_onSpeak c).
Qed.

Lemma messages_apply_error (c : Closure) (error : JSValue) (box : ChatBox) :
  messages (apply_frame host c (FError error) box) =
  match (if ToBoolean host error then ToString host error
         else Some msg_processing_failed) with
  | Some text => update_last (fun _ => warning_prefix ++ text) (messages box)
  | None => messages box
  end.
Proof.
  cbn [apply_frame].
  now destruct (if ToBoolean host error then ToString host error
                else Some msg_processing_failed).
Qed.

(** The transcript after a frame is the transcript before it with the
    content of its last entry possibly replaced, and replaced only in an
    assistant entry. *)
Lemma messages_apply_frame (c : Closure) (f : Frame) (box : ChatBox) :
  exists g,
  messages (apply_frame host c f box) = update_last g (messages box).
Proof.
  destruct f as [data| |error].
  - rewrite messages_apply_content. destruct (ToString host data).
    + now eexists.
    + exists (fun old => old). now rewrite update_last_same.
  - exists (fun old => old). now rewrite messages_apply_end, update_last_same.
  - rewrite messages_apply_error.
    destruct (if ToBoolean host error then ToString host error
              else Some msg_processing_failed).
    + now eexists.
    + exists (fun old => old). now rewrite update_last_same.
Qed.

(** C10.  The role guard: a frame changes the transcript at most in the
    content of its last entry, and only when that entry is the assistant's.
    A transcript that is empty or ends with a user entry is left as it is,
    and no user entry is ever modified. *)
Theorem frame_guarded_by_role (c : Closure) (f : Frame) (box : ChatBox) :
  (forall pre old t,
     messages box = pre ++ [mkMessage assistant old t] ->
     exists new,
       messages (apply_frame host c f box) =
       pre ++ [mkMessage assistant new t]) /\
  (forall pre m,
     messages box = pre ++ [m] -> role m = user ->
     messages (apply_frame host c f box) = messages box) /\
  (messages box = [] -> messages (apply_frame host c f box) = []) /\
  (forall i m,
     nth_error (messages box) i = Some m -> role m = user ->
     nth_error (messages (apply_frame host c f box)) i = Some m).
Proof.
  destruct (messages_apply_frame c f box) as [g E]. rewrite E.
  repeat split.
  - intros pre old t Hms. rewrite Hms, update_last_assistant. now eexists.
  - intros pre m Hms Hm. rewrite Hms. now apply update_last_user.
  - intros Hms. now rewrite Hms.
  - intros i m Hi Hm.
    destruct (transcript_cases (messages box))
      as [E0|[(pre & m' & E0 & Hm')|(pre & old & t & E0)]];
      rewrite E0 in *.
    + exact Hi.
    + now rewrite update_last_user.
    + rewrite update_last_assistant.
      destruct (Nat.lt_ge_cases i (length pre)) as [Hlt|Hge].
      * rewrite nth_error_app1 in * by exact Hlt. exact Hi.
      * rewrite nth_error_app2 in Hi by exact Hge.
        destruct (i - length pre) as [|k]; cbn in Hi.
        -- injection Hi as Hi. subst m. discriminate Hm.
        -- now destruct k.
Qed.

Lemma sendMessage_accepted (key : jsstring) (onSpeak : bool) (box : ChatBox) :
  trim (inputValue box) <> [] -> isLoading box = false -> key <> [] ->
  sendMessage host (Some key) onSpeak box =
  (mkChatBox
     (messages box ++ [mkMessage user (trim (inputValue box))
                         (Date_now host (ticks box))])
     [] true (spoken box)
     (requests box ++ [mkRequest key (trim (inputValue box)) (messages box)])
     (S (ticks box)),
   AwaitFetch (mkClosure (messages box) (trim (inputValue box)) onSpeak)).
Proof.
  intros Hmsg Hload Hkey. unfold sendMessage. rewrite Hload.
  destruct (trim (inputValue box)) as [|m ms]; [contradiction|].
  destruct key as [|k key]; [contradiction|]. reflexivity.
Qed.

Lemma apply_frames_cons (c : Closure) (f : Frame) (fs : list Frame)
  (box : ChatBox) :
  apply_frames host c (f :: fs) box =
  apply_frames host c fs (apply_frame host c f box).
Proof. reflexivity. Qed.

(** Content frames append to the assistant entry that ends the transcript,
    and end frames leave it alone. *)
Lemma apply_payloads (c : Closure) (fs : list Frame) :
  existsb is_error fs = false ->
  forall payloads box pre old t,
  payload_texts host fs = Some payloads ->
  messages box = pre ++ [mkMessage assistant old t] ->
  messages (apply_frames host c fs box) =
  pre ++ [mkMessage assistant (old ++ concat payloads) t].
Proof.
  induction fs as [|f fs IH]; intros Hfs payloads box pre old t Hp Hms.
  - injection Hp as <-. cbn [apply_frames fold_left concat].
    now rewrite app_nil_r.
  - cbn [existsb] in Hfs. apply orb_false_elim in Hfs.
    destruct Hfs as [Hf Hfs]. rewrite apply_frames_cons.
    destruct f as [data| |error]; [| |discriminate Hf].
    + cbn [payload_texts] in Hp.
      destruct (ToString host data) as [text|] eqn:Etext; [|discriminate Hp].
      destruct (payload_texts host fs) as [rest|] eqn:Erest;
        [|discriminate Hp].
      injection Hp as <-. cbn [concat].
      rewrite (IH Hfs rest _ pre (old ++ text) t eq_refl);
        [now rewrite app_assoc|].
      rewrite messages_apply_content, Etext.
      now rewrite Hms, update_last_assistant.
    + cbn [payload_texts] in Hp. apply (IH Hfs payloads); [exact Hp|].
      now rewrite messages_apply_end.
Qed.

Lemma text_frames_only (payloads : list jsstring) :
  existsb is_error (map (fun p => FContent (JString p)) payloads) = false /\
  payload_texts host (map (fun p => FContent (JString p)) payloads) =
  Some payloads.
Proof.
  induction payloads as [|p payloads [IH1 IH2]]; [now split|].
  cbn [map existsb is_error payload_texts ToString orb].
  now rewrite IH2.
Qed.

Lemma apply_content_frames (c : Closure) (payloads : list jsstring) :
  forall box pre old t,
  messages box = pre ++ [mkMessage assistant old t] ->
  messages
    (apply_frames host c (map (fun p => FContent (JString p)) payloads) box) =
  pre ++ [mkMessage assistant (old ++ concat payloads) t].
Proof.
  intros box pre old t Hms.
  destruct (text_frames_only payloads) as [Hall Hpayloads].
  exact (apply_payloads c _ Hall payloads box pre old t Hpayloads Hms).
Qed.

(** The state in which an accepted request leaves the component when the
    response arrives with a body: the user entry and an empty assistant
    entry are in the transcript, and the call is about to read. *)
Lemma run_streaming (key : jsstring) (onSpeak : bool) (box : ChatBox)
  (events : list Event) :
  trim (inputValue box) <> [] -> isLoading box = false -> key <> [] ->
  run host (sendMessage host (Some key) onSpeak box)
    (Fetched (Response true true) :: events) =
  run host
    (mkChatBox
       (messages box ++
        [mkMessage user (trim (inputValue box)) (Date_now host (ticks box));
         mkMessage assistant [] (Date_now host (S (ticks box)))])
       [] true (spoken box)
       (requests box ++
        [mkRequest key (trim (inputValue box)) (messages box)])
       (S (S (ticks box))),
     AwaitRead (mkClosure (messages box) (trim (inputValue box)) onSpeak) [])
    events.
Proof.
  intros Hmsg Hload Hkey. rewrite sendMessage_accepted by assumption.
  rewrite run_cons. cbn [step resume_fetch]. unfold setMessages, tick.
  cbn [messages inputValue isLoading spoken requests ticks].
  now rewrite <- app_assoc.
Qed.


(** What an end frame narrates is read from the captured transcript alone:
    the current transcript has no part in it. *)
Lemma spoken_apply_end (c : Closure) (box : ChatBox) :
  spoken (apply_frame host c FEnd box) =
  spoken box ++
  match last_message (c_messages c) with
  | Some m =>
      match content m with
      | [] => []
      | _ :: _ => if c_onSpeak c then [content m] else []
      end
  | None => []
  end.
Proof.
  cbn [apply_frame]. destruct (last_message (c_messages c)) as [m|];
    [|now rewrite app_nil_r].
  destruct (content m); [now rewrite app_nil_r|].
  destruct (c_onSpeak c); [reflexivity|now rewrite app_nil_r].
Qed.

Lemma setIsLoading_idle (box : ChatBox) :
  isLoading box = false -> setIsLoading false box = box.
Proof. destruct box. cbn. now intros ->. Qed.

Lemma catch_thrown (text : jsstring) (box : ChatBox) :
  text <> [] ->
  catch host (Error text) box =
  mkChatBox
    (messages box ++
     [mkMessage assistant (warning_prefix ++ text)
        (Date_now host (ticks box))])
    (inputValue box) false (spoken box) (requests box) (S (ticks box)).
Proof. intros Htext. destruct text; [contradiction|reflexivity]. Qed.

Lemma isLoading_catch (error : JSError) (box : ChatBox) :
  isLoading (catch host error box) = false.
Proof. unfold catch. now destruct (str_eqb _ _). Qed.

(** A stop click resolves the call whatever it was awaiting, and touches
    nothing but the loading flag. *)
Lemma step_stop (st : ChatBox * Call) :
  step host st Stop = (setIsLoading false (fst st), Returned).
Proof. destruct st as [[ms input loading sp rs k] [|c|c buffer]]; reflexivity. Qed.

(** Once the call has returned and the flag is down, nothing moves. *)
Lemma run_returned (events : list Event) (box : ChatBox) :
  isLoading box = false ->
  run host (box, Returned) events = (box, Returned).
Proof.
  intros Hload. induction events as [|e events IH]; [reflexivity|].
  rewrite run_cons. destruct e as [r|r|]; try exact IH.
  rewrite step_stop. cbn [fst]. now rewrite setIsLoading_idle.
Qed.

Lemma isLoading_apply_frame (c : Closure) (f : Frame) (box : ChatBox) :
  isLoading box = false -> isLoading (apply_frame host c f box) = false.
Proof.
  intros Hload. destruct f as [data| |error]; cbn [apply_frame].
  - now destruct (ToString host data).
  - destruct (last_message (c_messages c)) as [m|]; [|reflexivity].
    destruct (content m); [reflexivity|]. now destruct (c_onSpeak c).
  - now destruct (if ToBoolean host error then _ else _).
Qed.

Lemma isLoading_process_lines (c : Closure) (lines : list jsstring) :
  forall box,
  isLoading box = false -> isLoading (process_lines host c lines box) = false.
Proof.
  induction lines as [|line lines IH]; intros box Hload; [exact Hload|].
  cbn [process_lines fold_left]. apply IH. unfold process_line.
  destruct (decode_line host line);
    [now apply isLoading_apply_frame|exact Hload].
Qed.

Lemma isLoading_step (st : ChatBox * Call) (e : Event) :
  isLoading (fst st) = false -> isLoading (fst (step host st e)) = false.
Proof.
  intros Hload. destruct e as [r|r|]; [| |now rewrite step_stop].
  - destruct st as [box [|c|c buffer]]; try exact Hload.
    cbn [step resume_fetch].
    destruct r as [[] []|error]; cbn [fst];
      try apply isLoading_catch; exact Hload.
  - destruct st as [box [|c|c buffer]]; try exact Hload.
    cbn [step resume_read]. destruct r as [text| |error]; cbn [fst].
    + destruct (feed_lines buffer text) as [lines buffer']. cbn [fst].
      now apply isLoading_process_lines.
    + exact Hload.
    + apply isLoading_catch.
Qed.

(** C5, as the code has it.  A request that is rejected, or that cannot be
    sent for want of an API key, ends the call with the loading flag down
    and with two entries added to the transcript: the user's message and an
    assistant entry that carries the failure notice.  The rejected request
    was issued once; without a key none is issued. *)
Theorem rejected_request_adds_notice (onSpeak : bool) (box : ChatBox) :
  trim (inputValue box) <> [] -> isLoading box = false ->
  (forall key body,
     key <> [] ->
     run host (sendMessage host (Some key) onSpeak box)
       [Fetched (Response false body)] =
     (mkChatBox
        (messages box ++
         [mkMessage user (trim (inputValue box)) (Date_now host (ticks box));
          mkMessage assistant (warning_prefix ++ msg_request_failed)
            (Date_now host (S (ticks box)))])
        [] false (spoken box)
        (requests box ++
         [mkRequest key (trim (inputValue box)) (messages box)])
        (S (S (ticks box))),
      Returned)) /\
  (forall apiKey,
     apiKey = None \/ apiKey = Some [] ->
     sendMessage host apiKey onSpeak box =
     (mkChatBox
        (messages box ++
         [mkMessage user (trim (inputValue box)) (Date_now host (ticks box));
          mkMessage assistant (warning_prefix ++ msg_no_api_key)
            (Date_now host (S (ticks box)))])
        [] false (spoken box) (requests box) (S (S (ticks box))),
      Returned)).
Proof.
  intros Hmsg Hload. split.
  - intros key body Hkey. rewrite sendMessage_accepted by assumption.
    cbn [run fold_left step resume_fetch].
    rewrite catch_thrown by discriminate.
    cbn [messages inputValue isLoading spoken requests ticks].
    now rewrite <- app_assoc.
  - intros apiKey HapiKey. unfold sendMessage. rewrite Hload.
    destruct (trim (inputValue box)) as [|m ms] eqn:E; [contradiction|].
    destruct HapiKey as [->| ->]; rewrite catch_thrown by discriminate;
      cbn [messages inputValue isLoading spoken requests ticks setMessages
           setInputValue setIsLoading tick];
      now rewrite <- app_assoc.
Qed.

Lemma feed_lines_tail (buffer residual : jsstring) :
  ~ In LF buffer -> ~ In LF residual ->
  feed_lines buffer residual = ([], buffer ++ residual).
Proof.
  intros Hb Hr. unfold feed_lines, pop. rewrite split_no_sep; [reflexivity|].
  intros Hin. apply in_app_or in Hin. tauto.
Qed.

Lemma feed_all_buffer_no_LF (texts : list jsstring) (buffer : jsstring) :
  ~ In LF buffer -> ~ In LF (snd (feed_all host buffer texts)).
Proof.
  intros Hb. rewrite feed_all_concat, feed_eq by exact Hb.
  apply feed_lines_buffer_no_LF.
Qed.

(** C8, as the code has it.  The read loop returns at end-of-stream without
    decoding its buffer: the text that follows the last newline of the
    stream yields no frame, and the component ends in the state that the
    frames of the terminated lines produce, as if that text had not been
    sent. *)
Theorem unterminated_tail_discarded (c : Closure) (box : ChatBox)
  (texts : list jsstring) (residual : jsstring) :
  ~ In LF residual ->
  run host (box, AwaitRead c []) (chunks (texts ++ [residual]) ++ [Read Done]) =
  run host (box, AwaitRead c []) (chunks texts ++ [Read Done]) /\
  run host (box, AwaitRead c []) (chunks texts ++ [Read Done]) =
  (apply_frames host c (fst (feed_all host [] texts)) box, Returned).
Proof.
  intros Hr.
  assert (E : run host (box, AwaitRead c []) (chunks texts ++ [Read Done]) =
              (apply_frames host c (fst (feed_all host [] texts)) box,
               Returned)).
  { now rewrite run_app, run_chunks. }
  split; [|exact E]. rewrite E. unfold chunks. rewrite map_app.
  fold (chunks texts). rewrite <- app_assoc, run_app, run_chunks.
  cbn [map app run fold_left step chunk resume_read].
  rewrite feed_lines_tail; [reflexivity| |exact Hr].
  apply feed_all_buffer_no_LF. intros [].
Qed.

Lemma split_ends_LF (s : jsstring) : last (split LF (s ++ [LF])) [] = [].
Proof.
  rewrite split_app.
  rewrite split_line by apply last_split_no_sep.
  now rewrite last_app_nonempty by discriminate.
Qed.

Lemma unlines_snoc (lines : list jsstring) (l : jsstring) :
  unlines (lines ++ [l]) = (unlines lines ++ l) ++ [LF].
Proof.
  unfold unlines. rewrite map_app, concat_app. cbn [map concat].
  now rewrite app_nil_r, app_assoc.
Qed.

Lemma unlines_boundary (lines : list jsstring) :
  last (split LF (unlines lines)) [] = [].
Proof.
  induction lines as [|l lines _] using rev_ind; [reflexivity|].
  rewrite unlines_snoc. apply split_ends_LF.
Qed.

Lemma split_unlines_app (lines : list jsstring) (text : jsstring) :
  split LF (unlines lines ++ text) =
  removelast (split LF (unlines lines)) ++ split LF text.
Proof. now rewrite split_app, unlines_boundary. Qed.

Lemma decode_line_bad (line : jsstring) :
  startsWith line (u16 "data: ") = false \/
  JSON_parse host (slice 6 line) = None ->
  decode_line host line = None.
Proof.
  intros [Hprefix|Hbody]; unfold decode_line.
  - now rewrite Hprefix.
  - rewrite Hbody. now destruct (startsWith line (u16 "data: ")).
Qed.

(** C6.  Silent drop: a line without the marker, or whose body does not
    parse, yields no frame and leaves the component as it is; the stream
    that contains it between terminated lines and the rest decodes to the
    frames, and retains the buffer, of the stream without it, and the read
    loop goes on to the same state. *)
Theorem bad_line_dropped (c : Closure) (line : jsstring) :
  startsWith line (u16 "data: ") = false \/
  JSON_parse host (slice 6 line) = None ->
  ~ In LF line ->
  decode_line host line = None /\
  (forall box, process_line host c line box = box) /\
  (forall before after,
     feed host [] (unlines before ++ line ++ LF :: after) =
     feed host [] (unlines before ++ after)) /\
  (forall before after box,
     run host (box, AwaitRead c [])
       [chunk (unlines before ++ line ++ LF :: after)] =
     run host (box, AwaitRead c []) [chunk (unlines before ++ after)]).
Proof.
  intros Hbad Hline. pose proof (decode_line_bad line Hbad) as Hnone.
  assert (Hfeed : forall before after,
            feed host [] (unlines before ++ line ++ LF :: after) =
            feed host [] (unlines before ++ after)).
  { intros before after. rewrite !feed_eq. unfold feed_lines, pop.
    cbn [app fst snd]. rewrite !split_unlines_app, split_line by exact Hline.
    pose proof (split_not_nil LF after) as Hne.
    rewrite !removelast_app, !last_app_nonempty by (exact Hne || discriminate).
    rewrite !decode_lines_app.
    destruct (split LF after) as [|l ls] eqn:E; [contradiction|].
    cbn [removelast last decode_lines]. now rewrite Hnone. }
  repeat split.
  - exact Hnone.
  - intros box. unfold process_line. now rewrite Hnone.
  - exact Hfeed.
  - intros before after box. cbn [run fold_left].
    now rewrite !step_chunk, Hfeed.
Qed.

Lemma apply_content_only (c : Closure) (fs : list Frame) :
  forallb is_content fs = true ->
  forall box,
  isLoading (apply_frames host c fs box) = isLoading box /\
  ticks (apply_frames host c fs box) = ticks box.
Proof.
  induction fs as [|f fs IH]; intros Hfs box; [now split|].
  cbn [forallb] in Hfs. apply andb_prop in Hfs. destruct Hfs as [Hf Hfs].
  cbn [apply_frames fold_left].
  destruct (IH Hfs (apply_frame host c f box)) as [Hl Ht].
  unfold apply_frames in Hl, Ht. rewrite Hl, Ht.
  destruct f as [data| |error]; try discriminate Hf.
  cbn [apply_frame]. now destruct (ToString host data).
Qed.

Lemma content_frames_only (payloads : list jsstring) :
  forallb is_content (map (fun p => FContent (JString p)) payloads) = true.
Proof. induction payloads; [reflexivity|exact IHpayloads]. Qed.

End ComponentProperties.

(** ** The calls of a component *)

Lemma set_nth_same (A : Type) (i : nat) (x : A) (l : list A) :
  nth_error l i = Some x -> set_nth i x l = l.
Proof.
  revert i. induction l as [|y l IH]; intros [|i] H; cbn in *;
    try discriminate; [now injection H as ->|now rewrite IH].
Qed.

Lemma nth_error_set_nth (A : Type) (i j : nat) (x : A) (l : list A) :
  nth_error (set_nth i x l) j =
  if Nat.eqb i j then option_map (fun _ => x) (nth_error l j)
  else nth_error l j.
Proof.
  revert i j. induction l as [|y l IH]; intros i j.
  - destruct i, j; cbn; try reflexivity. now destruct (Nat.eqb i j).
  - destruct i as [|i], j as [|j]; cbn; try reflexivity. apply IH.
Qed.



Lemma Forall_set_nth (A : Type) (P : A -> Prop) (i : nat) (x : A)
  (l : list A) :
  P x -> Forall P l -> Forall P (set_nth i x l).
Proof.
  intros Hx Hl. revert i. induction Hl as [|y l Hy Hl IH]; intros [|i]; cbn;
    constructor; auto.
Qed.

Section CallsProperties.

Variable host : Host.

Lemma component_eta (comp : Component) :
  mkComponent (chatbox comp) (calls comp) (abortControllerRef comp) = comp.
Proof. now destruct comp. Qed.

Lemma component_run_cons (comp : Component) (a : Action)
  (actions : list Action) :
  component_run host comp (a :: actions) =
  component_run host (component_step host comp a) actions.
Proof. reflexivity. Qed.

Lemma abort_eq (box : ChatBox) (call : Call) :
  abort host (box, call) =
  (match call with
   | Returned => box
   | _ => setIsLoading false box
   end, Returned).
Proof. destruct call; reflexivity. Qed.

Lemma step_keeps_returned (e : Event) :
  e <> Stop -> keeps_returned (fun st => step host st e).
Proof. intros He box. destruct e; [reflexivity|reflexivity|contradiction]. Qed.

Lemma abort_keeps_returned : keeps_returned (abort host).
Proof. intros box. reflexivity. Qed.

Lemma resume_returned (i : nat) (k : ChatBox * Call -> ChatBox * Call)
  (comp : Component) :
  keeps_returned k -> nth_error (calls comp) i = Some Returned ->
  resume i k comp = comp.
Proof.
  intros Hk Hi. unfold resume. rewrite Hi, Hk.
  rewrite set_nth_same by exact Hi. apply component_eta.
Qed.

Lemma calls_resume (i j : nat) (k : ChatBox * Call -> ChatBox * Call)
  (comp : Component) :
  keeps_returned k -> nth_error (calls comp) j = Some Returned ->
  nth_error (calls (resume i k comp)) j = Some Returned.
Proof.
  intros Hk Hj. unfold resume.
  destruct (nth_error (calls comp) i) as [call|] eqn:Hi; [|exact Hj].
  destruct (k (chatbox comp, call)) as [box call'] eqn:E. cbn [calls].
  rewrite nth_error_set_nth. destruct (Nat.eqb_spec i j) as [->|]; [|exact Hj].
  rewrite Hj in Hi. injection Hi as <-. rewrite Hk in E.
  injection E as _ <-. now rewrite Hj.
Qed.

Lemma returned_step (comp : Component) (a : Action) (j : nat) :
  nth_error (calls comp) j = Some Returned ->
  nth_error (calls (component_step host comp a)) j = Some Returned.
Proof.
  intros Hj. destruct a as [text|apiKey onSpeak| | |i r|i r];
    cbn [component_step calls]; try exact Hj.
  - unfold send.
    destruct (trim (inputValue (chatbox comp))); [exact Hj|].
    destruct (isLoading (chatbox comp)); [exact Hj|].
    destruct (sendMessage host apiKey onSpeak (chatbox comp)) as [box call].
    cbn [calls]. rewrite nth_error_app1; [exact Hj|].
    apply nth_error_Some. now rewrite Hj.
  - unfold stopGenerating. cbn [abortControllerRef].
    destruct (abortControllerRef comp) as [i|]; [|exact Hj].
    apply calls_resume; [apply abort_keeps_returned|exact Hj].
  - apply calls_resume; [now apply step_keeps_returned|exact Hj].
  - apply calls_resume; [now apply step_keeps_returned|exact Hj].
Qed.

Lemma returned_run (actions : list Action) :
  forall comp j,
  nth_error (calls comp) j = Some Returned ->
  nth_error (calls (component_run host comp actions)) j = Some Returned.
Proof.
  induction actions as [|a actions IH]; intros comp j Hj; [exact Hj|].
  rewrite component_run_cons. apply IH. now apply returned_step.
Qed.

Lemma settled_returned (comp : Component) (i : nat) :
  nth_error (calls comp) i = Some Returned ->
  (forall r, component_step host comp (FetchSettled i r) = comp) /\
  (forall r, component_step host comp (ReadSettled i r) = comp).
Proof.
  intros Hi. split; intros r; cbn [component_step];
    (apply resume_returned; [now apply step_keeps_returned|exact Hi]).
Qed.

Lemma isLoading_resume (i : nat) (k : ChatBox * Call -> ChatBox * Call)
  (comp : Component) :
  (forall st, isLoading (fst st) = false -> isLoading (fst (k st)) = false) ->
  isLoading (chatbox comp) = false ->
  isLoading (chatbox (resume i k comp)) = false.
Proof.
  intros Hk Hload. unfold resume.
  destruct (nth_error (calls comp) i) as [call|]; [|exact Hload].
  specialize (Hk (chatbox comp, call) Hload).
  now destruct (k (chatbox comp, call)).
Qed.

Lemma isLoading_stopGenerating (comp : Component) :
  isLoading (chatbox (stopGenerating host comp)) = false.
Proof.
  unfold stopGenerating. cbn [abortControllerRef].
  destruct (abortControllerRef comp) as [i|]; [|reflexivity].
  apply isLoading_resume; [|reflexivity].
  intros [box call] Hload. rewrite abort_eq. cbn [fst] in *.
  now destruct call.
Qed.

Lemma isLoading_passive (comp : Component) (a : Action) :
  passive a = true -> isLoading (chatbox comp) = false ->
  isLoading (chatbox (component_step host comp a)) = false.
Proof.
  intros Ha Hload. destruct a as [text|apiKey onSpeak| | |i r|i r];
    try discriminate Ha; cbn [component_step].
  - apply isLoading_stopGenerating.
  - apply isLoading_resume; [|exact Hload].
    intros st. apply isLoading_step.
  - apply isLoading_resume; [|exact Hload].
    intros st. apply isLoading_step.
Qed.

Lemma stopGenerating_idle (comp : Component) :
  isLoading (chatbox comp) = false -> Forall (eq Returned) (calls comp) ->
  stopGenerating host comp = comp.
Proof.
  intros Hload Hcalls. unfold stopGenerating. cbn [abortControllerRef].
  rewrite setIsLoading_idle by exact Hload. rewrite component_eta.
  destruct (abortControllerRef comp) as [i|]; [|reflexivity].
  destruct (nth_error (calls comp) i) as [call|] eqn:Hi.
  - apply resume_returned; [apply abort_keeps_returned|].
    rewrite Forall_forall in Hcalls.
    now rewrite (Hcalls call (nth_error_In _ _ Hi)).
  - unfold resume. now rewrite Hi.
Qed.

Lemma settle_idle (comp : Component) (i : nat) (e : Event) :
  e <> Stop -> Forall (eq Returned) (calls comp) ->
  resume i (fun st => step host st e) comp = comp.
Proof.
  intros He Hcalls.
  destruct (nth_error (calls comp) i) as [call|] eqn:Hi.
  - apply resume_returned; [now apply step_keeps_returned|].
    rewrite Forall_forall in Hcalls.
    now rewrite (Hcalls call (nth_error_In _ _ Hi)).
  - unfold resume. now rewrite Hi.
Qed.

Lemma passive_idle (comp : Component) (a : Action) :
  passive a = true ->
  isLoading (chatbox comp) = false -> Forall (eq Returned) (calls comp) ->
  component_step host comp a = comp.
Proof.
  intros Ha Hload Hcalls. destruct a as [text|apiKey onSpeak| | |i r|i r];
    try discriminate Ha; cbn [component_step].
  - now apply stopGenerating_idle.
  - now apply settle_idle.
  - now apply settle_idle.
Qed.

Lemma run_idle (actions : list Action) (comp : Component) :
  forallb passive actions = true ->
  isLoading (chatbox comp) = false -> Forall (eq Returned) (calls comp) ->
  component_run host comp actions = comp.
Proof.
  intros Ha Hload Hcalls. induction actions as [|a actions IH];
    [reflexivity|].
  cbn [forallb] in Ha. apply andb_prop in Ha. destruct Ha as [Ha Hrest].
  rewrite component_run_cons, passive_idle by assumption. now apply IH.
Qed.

Lemma isLoading_run_passive (actions : list Action) :
  forall comp,
  forallb passive actions = true -> isLoading (chatbox comp) = false ->
  isLoading (chatbox (component_run host comp actions)) = false.
Proof.
  induction actions as [|a actions IH]; intros comp Ha Hload; [exact Hload|].
  cbn [forallb] in Ha. apply andb_prop in Ha. destruct Ha as [Ha Hrest].
  rewrite component_run_cons. apply IH; [exact Hrest|].
  now apply isLoading_passive.
Qed.





Lemma length_set_nth (A : Type) (i : nat) (x : A) (l : list A) :
  length (set_nth i x l) = length l.
Proof.
  revert i. induction l as [|y l IH]; intros [|i]; cbn; try reflexivity.
  now rewrite IH.
Qed.

Lemma resume_shape (i : nat) (k : ChatBox * Call -> ChatBox * Call)
  (comp : Component) :
  length (calls (resume i k comp)) = length (calls comp) /\
  abortControllerRef (resume i k comp) = abortControllerRef comp.
Proof.
  unfold resume. destruct (nth_error (calls comp) i) as [call|];
    [|now split].
  destruct (k (chatbox comp, call)) as [box call']. cbn [calls].
  now rewrite length_set_nth.
Qed.

Lemma ref_step (comp : Component) (a : Action) :
  abortControllerRef comp = pred_error (length (calls comp)) ->
  abortControllerRef (component_step host comp a) =
  pred_error (length (calls (component_step host comp a))).
Proof.
  intros Href. destruct a as [text|apiKey onSpeak| | |i r|i r];
    cbn [component_step calls abortControllerRef]; try exact Href.
  - unfold send.
    destruct (trim (inputValue (chatbox comp))); [exact Href|].
    destruct (isLoading (chatbox comp)); [exact Href|].
    destruct (sendMessage host apiKey onSpeak (chatbox comp)) as [box call].
    cbn [calls abortControllerRef]. rewrite length_app, Nat.add_1_r.
    reflexivity.
  - unfold stopGenerating. cbn [abortControllerRef].
    destruct (abortControllerRef comp) as [i|] eqn:E.
    + destruct (resume_shape i (abort host)
                  (mkComponent (setIsLoading false (chatbox comp))
                     (calls comp) (Some i))) as [-> ->].
      exact Href.
    + exact Href.
  - destruct (resume_shape i (fun st => step host st (Fetched r)) comp)
      as [-> ->].
    exact Href.
  - destruct (resume_shape i (fun st => step host st (Read r)) comp)
      as [-> ->].
    exact Href.
Qed.

(** At any time the ref holds the controller of the call that was started
    last, and of no other. *)
Lemma ref_holds_latest_call (actions : list Action) :
  abortControllerRef (component_run host empty_chat actions) =
  pred_error (length (calls (component_run host empty_chat actions))).
Proof.
  assert (H : forall comp,
            abortControllerRef comp = pred_error (length (calls comp)) ->
            abortControllerRef (component_run host comp actions) =
            pred_error (length (calls (component_run host comp actions)))).
  { induction actions as [|a actions IH]; intros comp Href; [exact Href|].
    rewrite component_run_cons. apply IH. now apply ref_step. }
  now apply H.
Qed.

Lemma stopGenerating_latest (comp : Component) (i : nat) (call : Call) :
  abortControllerRef comp = Some i ->
  nth_error (calls comp) i = Some call ->
  stopGenerating host comp =
  mkComponent (setIsLoading false (chatbox comp))
    (set_nth i Returned (calls comp)) (Some i).
Proof.
  intros Href Hi. unfold stopGenerating, resume.
  cbn [abortControllerRef calls chatbox]. rewrite Href, Hi, abort_eq.
  destruct call; try reflexivity.
  all: now destruct (chatbox comp).
Qed.

Lemma all_returned_set_nth (i : nat) (l : list Call) :
  (forall j other, j <> i -> nth_error l j = Some other -> other = Returned) ->
  Forall (eq Returned) (set_nth i Returned l).
Proof.
  intros Hl. apply Forall_forall. intros x Hx.
  apply In_nth_error in Hx. destruct Hx as [j Hj].
  rewrite nth_error_set_nth in Hj. destruct (Nat.eqb_spec i j) as [->|Hij].
  - destruct (nth_error l j); [now injection Hj|discriminate Hj].
  - symmetry. apply (Hl j); [|exact Hj]. intros ->. now apply Hij.
Qed.

(** C7, as the code has it.  A stop click leaves the transcript (and with it
    the content streamed so far) and the narration log as they are, appends
    no notice, lowers the loading flag and ends the call whose controller
    the ref holds, which is the latest call: nothing that is delivered to
    that call afterwards is processed.  The other calls go on; when none of
    them is still running, nothing that arrives afterwards changes the
    component. *)
Theorem cancel_ends_latest_call (comp : Component) (i : nat) (call : Call) :
  abortControllerRef comp = Some i ->
  nth_error (calls comp) i = Some call ->
  let stopped := stopGenerating host comp in
  messages (chatbox stopped) = messages (chatbox comp) /\
  spoken (chatbox stopped) = spoken (chatbox comp) /\
  isLoading (chatbox stopped) = false /\
  calls stopped = set_nth i Returned (calls comp) /\
  (forall later,
     let current := component_run host stopped later in
     nth_error (calls current) i = Some Returned /\
     (forall r, component_step host current (FetchSettled i r) = current) /\
     (forall r, component_step host current (ReadSettled i r) = current)) /\
  ((forall j other,
      j <> i -> nth_error (calls comp) j = Some other -> other = Returned) ->
   forall later,
   forallb passive later = true ->
   component_run host stopped later = stopped).
Proof.
  intros Href Hi stopped. subst stopped.
  rewrite (stopGenerating_latest comp i call Href Hi).
  cbn [chatbox calls].
  assert (Hreturned :
            forall later,
            nth_error
              (calls
                 (component_run host
                    (mkComponent (setIsLoading false (chatbox comp))
                       (set_nth i Returned (calls comp)) (Some i)) later)) i =
            Some Returned).
  { intros later. apply returned_run. cbn [calls].
    rewrite nth_error_set_nth, Nat.eqb_refl. now rewrite Hi. }
  split; [reflexivity|]. split; [reflexivity|]. split; [reflexivity|].
  split; [reflexivity|]. split.
  - intros later. cbv zeta. split; [apply Hreturned|].
    apply settled_returned, Hreturned.
  - intros Hothers later Hlater. apply run_idle; [exact Hlater|reflexivity|].
    cbn [calls]. now apply all_returned_set_nth.
Qed.

(** C3, as the code has it.  A call that has returned (after a stop click,
    a failure or the close of its stream) stays returned, and nothing that
    is delivered to it afterwards is processed.  Once the loading flag is
    down (after an end frame, an error frame, a failure or a stop click)
    nothing that arrives later, and no stop click, raises it again; and once
    every call has returned as well, nothing that arrives later changes the
    component at all.  While a call is still reading, the frames that reach
    it are applied. *)
Theorem resolved_calls_stay_resolved (comp : Component) :
  (forall later i,
     nth_error (calls comp) i = Some Returned ->
     let current := component_run host comp later in
     nth_error (calls current) i = Some Returned /\
     (forall r, component_step host current (FetchSettled i r) = current) /\
     (forall r, component_step host current (ReadSettled i r) = current)) /\
  (forall later,
     forallb passive later = true -> isLoading (chatbox comp) = false ->
     isLoading (chatbox (component_run host comp later)) = false /\
     (Forall (eq Returned) (calls comp) ->
      component_run host comp later = comp)).
Proof.
  split.
  - intros later i Hi current.
    assert (H : nth_error (calls current) i = Some Returned)
      by now apply returned_run.
    split; [exact H|]. now apply settled_returned.
  - intros later Hlater Hload. split.
    + now apply isLoading_run_passive.
    + intros Hcalls. now apply run_idle.
Qed.


End CallsProperties.

(** * The claims on concrete sessions *)

Ltac no_newline :=
  let H := fresh in
  intros H; vm_compute in H;
  repeat (destruct H as [H|H]; [discriminate H|]); exact H.

Ltac not_empty :=
  let H := fresh in intros H; vm_compute in H; discriminate H.

Example split_keeps_partial_line :
  feed_lines (u16 "da") (u16 "ta: 1" ++ [LF] ++ u16 "data") =
  ([u16 "data: 1"], u16 "data").
Proof. reflexivity. Qed.

Example parse_content_event :
  decode_line reference_host (content_line "Rev ") =
  Some (FContent (JString (u16 "Rev "))).
Proof. reflexivity. Qed.

Example parse_rejects_garbage :
  Json.parse (wire "{not json") = None /\
  Json.parse (wire "{'type':'end'} x") = None /\
  Json.parse (wire "{'type':'end',}") = None /\
  Json.parse (wire "01") = None.
Proof. repeat split. Qed.

Example parse_escapes :
  Json.parse (wire "'a\u0041\n'") = Some (JString [97; 65; 10]%N).
Proof. reflexivity. Qed.

(** The end-to-end scenario of the specification, up to narration. *)
Example scenario_transcript :
  map (fun m => (role m, content m))
    (messages (fst (run reference_host (streaming "revenue?")
                      [chunk (unlines scenario_stream)]))) =
  [(user, u16 "revenue?"); (assistant, u16 "Rev is up")].
Proof. reflexivity. Qed.


(** C4.  Narration on completion, on the code: the end frame reads the
    final content from the transcript that the call captured when it was
    started, which holds none of the content streamed since.  In the
    end-to-end scenario the assistant message ends as "Rev is up" and
    nothing is narrated; in a later turn the reply of the turn before is
    narrated in place of the new one. *)
Theorem narration_reads_captured_transcript :
  (let st := run reference_host (streaming "revenue?")
               [chunk (unlines scenario_stream)] in
   map content (messages (fst st)) = [u16 "revenue?"; u16 "Rev is up"] /\
   isLoading (fst st) = false /\
   spoken (fst st) = []) /\
  (let st := run reference_host
               (sendMessage reference_host api_key true
                  (second_turn "revenue?"))
               (Fetched (Response true true)
                :: chunks [unlines scenario_stream]) in
   map content (messages (fst st)) =
     [u16 "margin?"; u16 "Margin fell"; u16 "revenue?"; u16 "Rev is up"] /\
   isLoading (fst st) = false /\
   spoken (fst st) = [u16 "Margin fell"]).
Proof. repeat split. Qed.

(** C3, as stated, fails: after an end frame, and after an error frame, a
    content frame that arrives on the open stream is still appended to the
    assistant message. *)
Lemma terminal_exclusivity_counterexample :
  (let ended := run reference_host (streaming "revenue?")
                  [chunk (unlines [content_line "Rev "; end_line])] in
   isLoading (fst ended) = false /\
   messages (fst (run reference_host ended
                    [chunk (unlines [content_line "late"])])) <>
   messages (fst ended)) /\
  (let failed := run reference_host (streaming "revenue?")
                   [chunk (unlines [error_line "quota"])] in
   isLoading (fst failed) = false /\
   messages (fst (run reference_host failed
                    [chunk (unlines [content_line "late"])])) <>
   messages (fst failed)).
Proof.
  split; cbv zeta; (split; [reflexivity|]); vm_compute; intros H;
    discriminate H.
Qed.

(** C7, as stated, fails: a first call whose stream has carried its end
    frame is still reading when a second turn is started and stopped; the
    stop click aborts the second call alone, and a content frame that then
    reaches the first call is appended to the message of the cancelled
    turn. *)
Lemma cancel_counterexample :
  let script :=
    first_turn ++
    [Typed (u16 "q2"); Sent api_key true;
     FetchSettled 1 (Response true true);
     ReadSettled 1 (Chunk (unlines [content_line "partial"]));
     Stopped;
     ReadSettled 0 (Chunk (unlines [content_line "late"]))] in
  let stopped := component_run reference_host empty_chat (removelast script) in
  let after := component_run reference_host empty_chat script in
  feasible reference_host empty_chat script = true /\
  abortControllerRef stopped = Some 1 /\
  nth_error (calls stopped) 1 = Some Returned /\
  isLoading (chatbox stopped) = false /\
  map (fun m => (role m, content m)) (messages (chatbox stopped)) =
    [(user, u16 "q1"); (assistant, u16 "first");
     (user, u16 "q2"); (assistant, u16 "partial")] /\
  map (fun m => (role m, content m)) (messages (chatbox after)) =
    [(user, u16 "q1"); (assistant, u16 "first");
     (user, u16 "q2"); (assistant, u16 "partiallate")] /\
  messages (chatbox after) <> messages (chatbox stopped).
Proof.
  cbv zeta. repeat split.
  intros H. apply (f_equal (map content)) in H. vm_compute in H.
  discriminate H.
Qed.

Lemma cancel_ends_latest_call_witness :
  let comp :=
    component_run reference_host empty_chat
      [Typed (u16 "revenue?"); Sent api_key true;
       FetchSettled 0 (Response true true);
       ReadSettled 0 (Chunk (unlines [content_line "partial"]))] in
  let later :=
    [ReadSettled 0 (Chunk (unlines [content_line "more"; end_line]));
     ReadSettled 0 Done; Stopped] in
  (abortControllerRef comp = Some 0 /\
   nth_error (calls comp) 0 =
     Some (AwaitRead (mkClosure [] (u16 "revenue?") true) []) /\
   (forall j other,
      j <> 0 -> nth_error (calls comp) j = Some other -> other = Returned) /\
   forallb passive later = true) /\
  isLoading (chatbox (stopGenerating reference_host comp)) = false /\
  calls (stopGenerating reference_host comp) = [Returned] /\
  map (fun m => (role m, content m))
    (messages
       (chatbox
          (component_run reference_host (stopGenerating reference_host comp)
             later))) =
  [(user, u16 "revenue?"); (assistant, u16 "partial")].
Proof.
  cbv zeta.
  set (comp := component_run reference_host empty_chat _).
  set (later := [ReadSettled 0 _; _; _]).
  assert (H1 : abortControllerRef comp = Some 0) by reflexivity.
  assert (H2 : nth_error (calls comp) 0 =
               Some (AwaitRead (mkClosure [] (u16 "revenue?") true) []))
    by reflexivity.
  assert (H3 : forall j other,
             j <> 0 -> nth_error (calls comp) j = Some other ->
             other = Returned).
  { intros [|[|j]] other Hj H; [contradiction|discriminate H|discriminate H]. }
  destruct (cancel_ends_latest_call reference_host comp 0 _ H1 H2)
    as (Hmessages & _ & Hflag & Hcalls & _ & Hidle).
  split; [repeat split; assumption|].
  split; [exact Hflag|]. split; [exact Hcalls|].
  exact (eq_trans
           (f_equal (fun c => map (fun m => (role m, content m))
                                (messages (chatbox c)))
              (Hidle H3 later eq_refl))
           (eq_trans
              (f_equal (map (fun m => (role m, content m))) Hmessages)
              eq_refl)).
Defined.

Lemma resolved_calls_stay_resolved_witness :
  let comp :=
    component_run reference_host empty_chat
      [Typed (u16 "revenue?"); Sent api_key true;
       FetchSettled 0 (Response true true);
       ReadSettled 0 (Chunk (unlines [content_line "partial"]));
       Stopped] in
  let later :=
    [ReadSettled 0 (Chunk (unlines [content_line "late"; end_line]));
     ReadSettled 0 Done; Stopped;
     FetchSettled 0 (Response true true)] in
  (nth_error (calls comp) 0 = Some Returned /\
   forallb passive later = true /\
   isLoading (chatbox comp) = false /\
   Forall (eq Returned) (calls comp)) /\
  nth_error (calls (component_run reference_host comp later)) 0 =
    Some Returned /\
  isLoading (chatbox (component_run reference_host comp later)) = false /\
  component_run reference_host comp later = comp.
Proof.
  cbv zeta.
  set (comp := component_run reference_host empty_chat _).
  set (later := [ReadSettled 0 _; _; _; _]).
  assert (H1 : nth_error (calls comp) 0 = Some Returned) by reflexivity.
  assert (H2 : Forall (eq Returned) (calls comp))
    by (repeat constructor).
  destruct (resolved_calls_stay_resolved reference_host comp)
    as [Hreturned Hflag].
  destruct (Hflag later eq_refl eq_refl) as [Hdown Hsame].
  split; [repeat split; assumption|].
  split; [exact (proj1 (Hreturned later 0 H1))|].
  split; [exact Hdown|exact (Hsame H2)].
Defined.



(** C5, as stated, fails: a rejected request, and a missing API key, leave
    an assistant entry in the transcript after the user's message. *)
Lemma rejected_request_counterexample :
  (let st := run reference_host
               (sendMessage reference_host api_key true (typed "revenue?"))
               [Fetched (Response false true)] in
   snd st = Returned /\
   isLoading (fst st) = false /\
   map (fun m => (role m, content m)) (messages (fst st)) =
     [(user, u16 "revenue?");
      (assistant, warning_prefix ++ msg_request_failed)]) /\
  (let st := sendMessage reference_host None true (typed "revenue?") in
   snd st = Returned /\
   isLoading (fst st) = false /\
   map (fun m => (role m, content m)) (messages (fst st)) =
     [(user, u16 "revenue?");
      (assistant, warning_prefix ++ msg_no_api_key)]).
Proof. repeat split. Qed.

Lemma rejected_request_adds_notice_witness :
  (trim (inputValue (typed "revenue?")) <> [] /\
   isLoading (typed "revenue?") = false) /\
  map role
    (messages
       (fst (run reference_host
               (sendMessage reference_host (Some (u16 "sk-demo")) true
                  (typed "revenue?"))
               [Fetched (Response false true)]))) = [user; assistant] /\
  map role
    (messages
       (fst (sendMessage reference_host None true (typed "revenue?")))) =
  [user; assistant].
Proof.
  assert (H1 : trim (inputValue (typed "revenue?")) <> []) by not_empty.
  assert (H2 : u16 "sk-demo" <> []) by not_empty.
  split; [split; [exact H1|reflexivity]|].
  destruct (rejected_request_adds_notice reference_host true
              (typed "revenue?") H1 eq_refl) as [Hrejected Hnokey].
  split.
  - exact (eq_trans
             (f_equal (fun st => map role (messages (fst st)))
                (Hrejected (u16 "sk-demo") true H2))
             eq_refl).
  - exact (eq_trans
             (f_equal (fun st => map role (messages (fst st)))
                (Hnokey None (or_introl eq_refl)))
             eq_refl).
Defined.

Lemma bad_line_dropped_witness :
  let c := mkClosure [] (u16 "revenue?") true in
  let line := wire "data: {not json" in
  (JSON_parse reference_host (slice 6 line) = None /\ ~ In LF line) /\
  decode_line reference_host line = None /\
  feed reference_host []
    (unlines [content_line "Rev "] ++ line ++ LF :: unlines [end_line]) =
  feed reference_host [] (unlines [content_line "Rev "] ++ unlines [end_line]).
Proof.
  cbv zeta.
  assert (H1 : JSON_parse reference_host
                 (slice 6 (wire "data: {not json")) = None) by reflexivity.
  assert (H2 : ~ In LF (wire "data: {not json")) by no_newline.
  split; [split; [exact H1|exact H2]|].
  destruct (bad_line_dropped reference_host
              (mkClosure [] (u16 "revenue?") true)
              (wire "data: {not json") (or_intror H1) H2)
    as (Hnone & _ & Hfeed & _).
  split; [exact Hnone|].
  exact (Hfeed [content_line "Rev "] (unlines [end_line])).
Defined.

(** C8, as stated, fails: a complete event line that ends the stream
    without its newline is a valid frame, and is never applied. *)
Lemma flush_counterexample :
  let st := run reference_host (streaming "revenue?")
              [chunk (content_line "Rev is up"); Read Done] in
  decode_line reference_host (content_line "Rev is up") =
    Some (FContent (JString (u16 "Rev is up"))) /\
  snd st = Returned /\
  map (fun m => (role m, content m)) (messages (fst st)) =
    [(user, u16 "revenue?"); (assistant, [])].
Proof. repeat split. Qed.

Lemma unterminated_tail_discarded_witness :
  let c := mkClosure [] (u16 "revenue?") true in
  let box := fst (streaming "revenue?") in
  ~ In LF (content_line "is up") /\
  run reference_host (box, AwaitRead c [])
    (chunks ([unlines [content_line "Rev "]] ++ [content_line "is up"])
     ++ [Read Done]) =
  run reference_host (box, AwaitRead c [])
    (chunks [unlines [content_line "Rev "]] ++ [Read Done]).
Proof.
  cbv zeta.
  assert (H : ~ In LF (content_line "is up")) by no_newline.
  split; [exact H|].
  exact (proj1 (unterminated_tail_discarded reference_host
                  (mkClosure [] (u16 "revenue?") true)
                  (fst (streaming "revenue?"))
                  [unlines [content_line "Rev "]]
                  (content_line "is up") H)).
Defined.

(** The cancellation scenario of the specification. *)
Example cancel_after_partial :
  let st := run reference_host (streaming "revenue?")
              [chunk (unlines [content_line "partial"]); Stop;
               chunk (unlines [content_line "more"])] in
  snd st = Returned /\
  isLoading (fst st) = false /\
  map (fun m => (role m, content m)) (messages (fst st)) =
    [(user, u16 "revenue?"); (assistant, u16 "partial")].
Proof. repeat split. Qed.

(** * Further properties of the decoder and of a turn *)

Lemma str_eqb_eq (a b : jsstring) : str_eqb a b = true -> a = b.
Proof.
  revert b. induction a as [|c a IH]; intros [|d b]; cbn [str_eqb];
    try discriminate; [reflexivity|].
  intros H. apply andb_prop in H. destruct H as [Hc Hab].
  apply N.eqb_eq in Hc. subst d. now rewrite (IH b Hab).
Qed.

Lemma split_join (sep : N) (s : jsstring) :
  concat (map (fun l => l ++ [sep]) (removelast (split sep s)))
    ++ last (split sep s) [] = s.
Proof.
  induction s as [|c s IH]; [reflexivity|].
  cbn [split]. pose proof (split_not_nil sep s) as Hne.
  destruct (c =? sep)%N eqn:E.
  - apply N.eqb_eq in E. subst c.
    destruct (split sep s) as [|l ls]; [contradiction|].
    cbn [removelast last map concat app] in *. now rewrite IH.
  - destruct (split sep s) as [|l ls]; [contradiction|].
    destruct ls as [|l2 ls]; cbn [removelast last map concat app] in *.
    + now rewrite IH.
    + now rewrite <- IH.
Qed.

Lemma split_pieces (sep : N) (s : jsstring) :
  Forall (fun l => ~ In sep l) (split sep s).
Proof.
  induction s as [|c s IH]; [repeat constructor; intros []|].
  cbn [split]. pose proof (split_not_nil sep s) as Hne.
  destruct (c =? sep)%N eqn:E.
  - constructor; [intros []|exact IH].
  - destruct (split sep s) as [|l ls]; [contradiction|].
    inversion IH as [|? ? Hl Hls]; subst. constructor; [|exact Hls].
    intros [Hc|Hin]; [|now apply Hl].
    subst c. now rewrite N.eqb_refl in E.
Qed.

Lemma Forall_removelast (A : Type) (P : A -> Prop) (l : list A) :
  Forall P l -> Forall P (removelast l).
Proof.
  induction 1 as [|x l Hx Hl IH]; [constructor|].
  cbn [removelast]. destruct l; [constructor|]. now constructor.
Qed.

(** X1.  The lines handed to the decoder and the buffer kept are the text
    itself, cut at its newlines: joined again with the newlines they give
    the buffer and chunk back, and none of them holds a newline. *)
Theorem feed_lines_round_trip (buffer text : jsstring) :
  unlines (fst (feed_lines buffer text)) ++ snd (feed_lines buffer text) =
    buffer ++ text /\
  Forall (fun l => ~ In LF l) (fst (feed_lines buffer text)) /\
  ~ In LF (snd (feed_lines buffer text)).
Proof.
  unfold feed_lines, pop, unlines. cbn [fst snd]. repeat split.
  - apply split_join.
  - apply Forall_removelast, split_pieces.
  - apply last_split_no_sep.
Qed.

Section SessionProperties.

Variable host : Host.

(** X2.  A frame comes from a JSON object only.  A line yields a frame only
    when it starts with the marker and its body parses to an object whose
    [type] is one of the strings 'content', 'end' and 'error'; the frame
    then carries the [data] or the [error] of that object.  A body that is
    [null], a number, a string or an array yields none. *)
Theorem decode_line_frame (line : jsstring) (f : Frame) :
  decode_line host line = Some f ->
  startsWith line (u16 "data: ") = true /\
  exists props,
    JSON_parse host (slice 6 line) = Some (JObject props) /\
    ((lookup (u16 "type") props = JString (u16 "content") /\
      f = FContent (lookup (u16 "data") props)) \/
     (lookup (u16 "type") props = JString (u16 "end") /\ f = FEnd) \/
     (lookup (u16 "type") props = JString (u16 "error") /\
      f = FError (lookup (u16 "error") props))).
Proof.
  unfold decode_line.
  destruct (startsWith line (u16 "data: ")); [|discriminate].
  destruct (JSON_parse host (slice 6 line)) as [parsed|]; [|discriminate].
  destruct parsed as [| |b|n|s|elements|props]; try discriminate.
  intros H. split; [reflexivity|]. exists props. split; [reflexivity|].
  cbn [get] in H.
  destruct (lookup (u16 "type") props) as [| |b|n|s|elements|props'] eqn:T;
    try discriminate.
  cbn [is_string] in H.
  destruct (str_eqb s (u16 "content")) eqn:E1.
  { apply str_eqb_eq in E1. subst s. injection H as <-. now left. }
  destruct (str_eqb s (u16 "end")) eqn:E2.
  { apply str_eqb_eq in E2. subst s. injection H as <-. right. now left. }
  destruct (str_eqb s (u16 "error")) eqn:E3; [|discriminate].
  apply str_eqb_eq in E3. subst s. injection H as <-. right. now right.
Qed.

(** *** Invariants of a turn *)

Lemma messages_catch (error : JSError) (box : ChatBox) :
  messages (catch host error box) = messages box \/
  exists m, role m = assistant /\
            messages (catch host error box) = messages box ++ [m].
Proof.
  unfold catch. destruct (str_eqb _ _); [now left|right].
  eexists. split; [|reflexivity]. reflexivity.
Qed.

Lemma update_last_turn (g : jsstring -> jsstring)
  (pre : list ChatMessage) (u : ChatMessage) (tail : list ChatMessage) :
  role u = user -> Forall (fun m => role m = assistant) tail ->
  exists tail',
    update_last g (pre ++ u :: tail) = pre ++ u :: tail' /\
    Forall (fun m => role m = assistant) tail'.
Proof.
  intros Hu Htail. destruct tail as [|x tail'] using rev_ind.
  - exists []. split; [|constructor].
    now apply update_last_user.
  - clear IHtail'. apply Forall_app in Htail. destruct Htail as [Ht Hx].
    inversion Hx as [|? ? Hrole _]; subst.
    destruct x as [r old t]. cbn in Hrole. subst r.
    exists (tail' ++ [mkMessage assistant (g old) t]). split.
    + change (pre ++ u :: tail' ++ [mkMessage assistant old t])
        with (pre ++ (u :: tail') ++ [mkMessage assistant old t]).
      rewrite app_assoc, update_last_assistant, <- app_assoc. reflexivity.
    + apply Forall_app. split; [exact Ht|]. now repeat constructor.
Qed.

Lemma process_lines_turn (c : Closure) (pre : list ChatMessage)
  (u : ChatMessage) (lines : list jsstring) :
  role u = user ->
  forall box,
  (exists tail, messages box = pre ++ u :: tail /\
                Forall (fun m => role m = assistant) tail) ->
  exists tail, messages (process_lines host c lines box) = pre ++ u :: tail /\
               Forall (fun m => role m = assistant) tail.
Proof.
  intros Hu. induction lines as [|line lines IH]; intros box Hbox;
    [exact Hbox|].
  cbn [process_lines fold_left]. apply IH. unfold process_line.
  destruct (decode_line host line) as [f|]; [|exact Hbox].
  destruct Hbox as (tail & E & Htail).
  destruct (messages_apply_frame host c f box) as [g Eg].
  rewrite Eg, E. now apply update_last_turn.
Qed.

Lemma append_assistant_turn (pre : list ChatMessage) (u m : ChatMessage)
  (ms ms' : list ChatMessage) :
  (exists tail, ms = pre ++ u :: tail /\
                Forall (fun m => role m = assistant) tail) ->
  role m = assistant -> ms' = ms ++ [m] ->
  exists tail, ms' = pre ++ u :: tail /\
               Forall (fun m => role m = assistant) tail.
Proof.
  intros (tail & E & Htail) Hm ->. exists (tail ++ [m]). split.
  - rewrite E, <- app_assoc. reflexivity.
  - apply Forall_app. split; [exact Htail|]. now repeat constructor.
Qed.

Lemma catch_turn (pre : list ChatMessage) (u : ChatMessage)
  (error : JSError) (box : ChatBox) :
  (exists tail, messages box = pre ++ u :: tail /\
                Forall (fun m => role m = assistant) tail) ->
  exists tail, messages (catch host error box) = pre ++ u :: tail /\
               Forall (fun m => role m = assistant) tail.
Proof.
  intros Hbox. destruct (messages_catch error box) as [E|(m & Hm & E)].
  - now rewrite E.
  - now apply (append_assistant_turn pre u m (messages box)).
Qed.

Lemma step_turn (pre : list ChatMessage) (u : ChatMessage)
  (st : ChatBox * Call) (e : Event) :
  role u = user ->
  (exists tail, messages (fst st) = pre ++ u :: tail /\
                Forall (fun m => role m = assistant) tail) ->
  exists tail, messages (fst (step host st e)) = pre ++ u :: tail /\
               Forall (fun m => role m = assistant) tail.
Proof.
  intros Hu Hst. destruct e as [r|r|].
  - destruct st as [box [|c|c buffer]]; try exact Hst.
    cbn [step resume_fetch fst] in *.
    destruct r as [[] []|error]; cbn [fst]; try now apply catch_turn.
    now apply (append_assistant_turn pre u
                 (mkMessage assistant [] (Date_now host (ticks box)))
                 (messages box)).
  - destruct st as [box [|c|c buffer]]; try exact Hst.
    cbn [step resume_read fst] in *. destruct r as [text| |error]; cbn [fst].
    + destruct (feed_lines buffer text) as [lines buffer']. cbn [fst].
      now apply process_lines_turn.
    + exact Hst.
    + now apply catch_turn.
  - rewrite step_stop. exact Hst.
Qed.

Lemma run_turn (pre : list ChatMessage) (u : ChatMessage)
  (events : list Event) :
  role u = user ->
  forall st,
  (exists tail, messages (fst st) = pre ++ u :: tail /\
                Forall (fun m => role m = assistant) tail) ->
  exists tail, messages (fst (run host st events)) = pre ++ u :: tail /\
               Forall (fun m => role m = assistant) tail.
Proof.
  intros Hu. induction events as [|e events IH]; intros st Hst;
    [exact Hst|].
  rewrite run_cons. apply IH. now apply step_turn.
Qed.

Lemma sendMessage_turn (apiKey : option jsstring) (onSpeak : bool)
  (box : ChatBox) :
  trim (inputValue box) <> [] -> isLoading box = false ->
  exists tail,
    messages (fst (sendMessage host apiKey onSpeak box)) =
    messages box ++
    mkMessage user (trim (inputValue box)) (Date_now host (ticks box))
    :: tail /\
    Forall (fun m => role m = assistant) tail.
Proof.
  intros Hmsg Hload. unfold sendMessage. rewrite Hload.
  destruct (trim (inputValue box)) as [|m ms] eqn:E; [contradiction|].
  assert (Hcatch : exists tail,
            messages
              (catch host (Error msg_no_api_key)
                 (setIsLoading true
                    (setInputValue []
                       (setMessages
                          (fun prev =>
                             prev ++ [mkMessage user (m :: ms)
                                        (Date_now host (ticks box))])
                          (tick box))))) =
            messages box ++
            mkMessage user (m :: ms) (Date_now host (ticks box)) :: tail /\
            Forall (fun m => role m = assistant) tail).
  { apply catch_turn. exists []. split; [reflexivity|constructor]. }
  destruct apiKey as [[|k key]|]; cbn [fst]; try exact Hcatch.
  exists []. split; [reflexivity|constructor].
Qed.

(** X3.  A turn leaves the earlier history alone.  Whatever happens after
    an accepted [sendMessage], the transcript is the transcript before the
    call, then the user's trimmed message, then assistant entries only. *)
Theorem history_preserved (apiKey : option jsstring) (onSpeak : bool)
  (box : ChatBox) (events : list Event) :
  trim (inputValue box) <> [] -> isLoading box = false ->
  exists tail,
    messages (fst (run host (sendMessage host apiKey onSpeak box) events)) =
    messages box ++
    mkMessage user (trim (inputValue box)) (Date_now host (ticks box))
    :: tail /\
    Forall (fun m => role m = assistant) tail.
Proof.
  intros Hmsg Hload. apply run_turn; [reflexivity|].
  now apply sendMessage_turn.
Qed.

(** *** Requests *)

Lemma process_lines_cons (c : Closure) (line : jsstring)
  (lines : list jsstring) (box : ChatBox) :
  process_lines host c (line :: lines) box =
  process_lines host c lines (process_line host c line box).
Proof. reflexivity. Qed.

Lemma requests_catch (error : JSError) (box : ChatBox) :
  requests (catch host error box) = requests box.
Proof. unfold catch. now destruct (str_eqb _ _). Qed.

Lemma requests_apply_frame (c : Closure) (f : Frame) (box : ChatBox) :
  requests (apply_frame host c f box) = requests box.
Proof.
  destruct f as [data| |error]; cbn [apply_frame].
  - now destruct (ToString host data).
  - destruct (last_message (c_messages c)) as [m|]; [|reflexivity].
    destruct (content m); [reflexivity|]. now destruct (c_onSpeak c).
  - now destruct (if ToBoolean host error then _ else _).
Qed.

Lemma requests_process_lines (c : Closure) (lines : list jsstring) :
  forall box, requests (process_lines host c lines box) = requests box.
Proof.
  induction lines as [|line lines IH]; intros box; [reflexivity|].
  rewrite process_lines_cons, IH. unfold process_line.
  destruct (decode_line host line); [apply requests_apply_frame|reflexivity].
Qed.

Lemma requests_step (st : ChatBox * Call) (e : Event) :
  requests (fst (step host st e)) = requests (fst st).
Proof.
  destruct e as [r|r|]; [| |now rewrite step_stop].
  - destruct st as [box [|c|c buffer]]; try reflexivity.
    cbn [step resume_fetch].
    destruct r as [[] []|error]; cbn [fst];
      try apply requests_catch; reflexivity.
  - destruct st as [box [|c|c buffer]]; try reflexivity.
    cbn [step resume_read]. destruct r as [text| |error]; cbn [fst].
    + destruct (feed_lines buffer text) as [lines buffer']. cbn [fst].
      apply requests_process_lines.
    + reflexivity.
    + apply requests_catch.
Qed.

Lemma requests_run (events : list Event) :
  forall st, requests (fst (run host st events)) = requests (fst st).
Proof.
  induction events as [|e events IH]; intros st; [reflexivity|].
  now rewrite run_cons, IH, requests_step.
Qed.

(** X4.  One request per turn, never repeated.  An accepted [sendMessage]
    with a key issues one request, which carries the key, the trimmed
    message and the transcript as it was before the call; whatever happens
    afterwards (a rejection, a transport failure, a stop click) issues no
    other.  Without a key none is issued. *)
Theorem single_request (apiKey : option jsstring) (onSpeak : bool)
  (box : ChatBox) (events : list Event) :
  trim (inputValue box) <> [] -> isLoading box = false ->
  requests (fst (run host (sendMessage host apiKey onSpeak box) events)) =
  requests box ++
  match apiKey with
  | Some (k :: key) =>
      [mkRequest (k :: key) (trim (inputValue box)) (messages box)]
  | _ => []
  end.
Proof.
  intros Hmsg Hload. rewrite requests_run.
  destruct apiKey as [[|k key]|].
  - unfold sendMessage. rewrite Hload.
    destruct (trim (inputValue box)); [contradiction|].
    cbn [fst]. rewrite requests_catch. cbn. now rewrite app_nil_r.
  - rewrite sendMessage_accepted by (assumption || discriminate).
    reflexivity.
  - unfold sendMessage. rewrite Hload.
    destruct (trim (inputValue box)); [contradiction|].
    cbn [fst]. rewrite requests_catch. cbn. now rewrite app_nil_r.
Qed.

(** *** Narration *)

Lemma spoken_catch (error : JSError) (box : ChatBox) :
  spoken (catch host error box) = spoken box.
Proof. unfold catch. now destruct (str_eqb _ _). Qed.

Lemma spoken_apply_frame (c : Closure) (f : Frame) (box : ChatBox) :
  exists k,
    spoken (apply_frame host c f box) =
    spoken box ++ repeat (finalContent (c_messages c)) k /\
    (c_onSpeak c = false \/ finalContent (c_messages c) = [] -> k = 0).
Proof.
  destruct f as [data| |error].
  - exists 0. cbn [apply_frame repeat]. rewrite app_nil_r.
    split; [now destruct (ToString host data)|reflexivity].
  - rewrite spoken_apply_end. unfold finalContent.
    destruct (last_message (c_messages c)) as [m|];
      [|exists 0; cbn; now rewrite app_nil_r].
    destruct (content m) as [|x xs] eqn:E;
      [exists 0; cbn; now rewrite app_nil_r|].
    destruct (c_onSpeak c).
    + exists 1. split; [reflexivity|]. intros [H|H]; discriminate H.
    + exists 0. cbn. now rewrite app_nil_r.
  - exists 0. cbn [apply_frame repeat]. rewrite app_nil_r.
    split; [now destruct (if ToBoolean host error then _ else _)|reflexivity].
Qed.

Lemma repeat_app_count (A : Type) (x : A) (l : list A) (j k : nat) :
  (l ++ repeat x j) ++ repeat x k = l ++ repeat x (j + k).
Proof. now rewrite <- app_assoc, repeat_app. Qed.

Lemma spoken_process_lines (c : Closure) (lines : list jsstring) :
  forall box,
  exists k,
    spoken (process_lines host c lines box) =
    spoken box ++ repeat (finalContent (c_messages c)) k /\
    (c_onSpeak c = false \/ finalContent (c_messages c) = [] -> k = 0).
Proof.
  induction lines as [|line lines IH]; intros box.
  - exists 0. cbn. now rewrite app_nil_r.
  - rewrite process_lines_cons.
    destruct (IH (process_line host c line box)) as (k & E & Hk).
    assert (Hline : exists j,
              spoken (process_line host c line box) =
              spoken box ++ repeat (finalContent (c_messages c)) j /\
              (c_onSpeak c = false \/ finalContent (c_messages c) = [] ->
               j = 0)).
    { unfold process_line. destruct (decode_line host line) as [f|].
      - apply spoken_apply_frame.
      - exists 0. cbn. now rewrite app_nil_r. }
    destruct Hline as (j & Ej & Hj).
    exists (j + k). rewrite E, Ej, repeat_app_count. split; [reflexivity|].
    intros H. rewrite (Hj H), (Hk H). reflexivity.
Qed.

Lemma spoken_step (c : Closure) (st : ChatBox * Call) (e : Event) :
  (snd st = Returned \/ snd st = AwaitFetch c \/
   exists buffer, snd st = AwaitRead c buffer) ->
  (snd (step host st e) = Returned \/ snd (step host st e) = AwaitFetch c \/
   exists buffer, snd (step host st e) = AwaitRead c buffer) /\
  exists k,
    spoken (fst (step host st e)) =
    spoken (fst st) ++ repeat (finalContent (c_messages c)) k /\
    (c_onSpeak c = false \/ finalContent (c_messages c) = [] -> k = 0).
Proof.
  intros Hcall. destruct e as [r|r|].
  - destruct st as [box call]. cbn [fst snd] in *.
    destruct Hcall as [->|[->|[buffer ->]]].
    + split; [now left|]. exists 0. cbn. now rewrite app_nil_r.
    + cbn [step resume_fetch].
      destruct r as [[] []|error]; cbn [resume_fetch fst snd];
        (split; [first [now left|right; right; now exists []]|]);
        exists 0; rewrite ?spoken_catch; cbn; now rewrite app_nil_r.
    + split; [right; right; now exists buffer|].
      exists 0. cbn. now rewrite app_nil_r.
  - destruct st as [box call]. cbn [fst snd] in *.
    destruct Hcall as [->|[->|[buffer ->]]].
    + split; [now left|]. exists 0. cbn. now rewrite app_nil_r.
    + split; [right; now left|]. exists 0. cbn. now rewrite app_nil_r.
    + destruct r as [text| |error]; cbn [step resume_read].
      * destruct (feed_lines buffer text) as [lines buffer'].
        cbn [fst snd]. split; [right; right; now exists buffer'|].
        apply spoken_process_lines.
      * cbn [fst snd]. split; [now left|].
        exists 0. cbn. now rewrite app_nil_r.
      * cbn [fst snd]. split; [now left|].
        exists 0. rewrite spoken_catch. cbn. now rewrite app_nil_r.
  - rewrite step_stop. cbn [fst snd]. split; [now left|].
    exists 0. cbn. now rewrite app_nil_r.
Qed.

Lemma spoken_run (c : Closure) (events : list Event) :
  forall st,
  (snd st = Returned \/ snd st = AwaitFetch c \/
   exists buffer, snd st = AwaitRead c buffer) ->
  exists k,
    spoken (fst (run host st events)) =
    spoken (fst st) ++ repeat (finalContent (c_messages c)) k /\
    (c_onSpeak c = false \/ finalContent (c_messages c) = [] -> k = 0).
Proof.
  induction events as [|e events IH]; intros st Hcall.
  - exists 0. cbn. now rewrite app_nil_r.
  - rewrite run_cons.
    destruct (spoken_step c st e Hcall) as (Hcall' & j & Ej & Hj).
    destruct (IH _ Hcall') as (k & Ek & Hk).
    exists (j + k). rewrite Ek, Ej, repeat_app_count. split; [reflexivity|].
    intros H. rewrite (Hj H), (Hk H). reflexivity.
Qed.

(** X5.  Whatever a turn narrates is read from the transcript as it was
    before the call.  Each text handed to [onSpeak] in the course of a turn
    is the content of the last entry of that earlier transcript; in a first
    turn, or without the [onSpeak] prop, nothing is narrated. *)
Theorem narration_from_earlier_transcript (apiKey : option jsstring)
  (onSpeak : bool) (box : ChatBox) (events : list Event) :
  exists k,
    spoken (fst (run host (sendMessage host apiKey onSpeak box) events)) =
    spoken box ++ repeat (finalContent (messages box)) k /\
    (onSpeak = false \/ finalContent (messages box) = [] -> k = 0).
Proof.
  assert (Hstart :
            spoken (fst (sendMessage host apiKey onSpeak box)) = spoken box /\
            (snd (sendMessage host apiKey onSpeak box) = Returned \/
             snd (sendMessage host apiKey onSpeak box) =
               AwaitFetch
                 (mkClosure (messages box) (trim (inputValue box)) onSpeak) \/
             exists buffer,
               snd (sendMessage host apiKey onSpeak box) =
               AwaitRead
                 (mkClosure (messages box) (trim (inputValue box)) onSpeak)
                 buffer)).
  { unfold sendMessage. cbv zeta.
    destruct (trim (inputValue box)) as [|m ms];
      [split; [reflexivity|now left]|].
    destruct (isLoading box); [split; [reflexivity|now left]|].
    destruct apiKey as [[|k key]|]; cbn [fst snd];
      rewrite ?spoken_catch; (split; [reflexivity|]);
      try (now left).
    right. now left. }
  destruct Hstart as [Hspoken Hcall].
  destruct (spoken_run _ events _ Hcall) as (k & E & Hk).
  exists k. rewrite E, Hspoken. now split.
Qed.

(** *** Content frames *)

(** X6.  A stream that closes without an end or error frame leaves the
    loading flag up.  The call has returned, yet every later [sendMessage]
    is turned away, whatever is typed, until a stop click lowers the
    flag. *)
Theorem loading_survives_stream_end (key : jsstring) (onSpeak : bool)
  (box : ChatBox) (texts : list jsstring) :
  trim (inputValue box) <> [] -> isLoading box = false -> key <> [] ->
  forallb is_content (fst (feed_all host [] texts)) = true ->
  let st := run host (sendMessage host (Some key) onSpeak box)
              (Fetched (Response true true) :: chunks texts ++ [Read Done]) in
  snd st = Returned /\
  isLoading (fst st) = true /\
  (forall apiKey' onSpeak' text,
     sendMessage host apiKey' onSpeak' (setInputValue text (fst st)) =
     (setInputValue text (fst st), Returned)) /\
  isLoading (fst (run host st [Stop])) = false.
Proof.
  intros Hmsg Hload Hkey Hframes st.
  assert (Hst : snd st = Returned /\ isLoading (fst st) = true).
  { subst st. rewrite run_streaming by assumption.
    rewrite run_app, run_chunks. cbn [run fold_left step resume_read fst snd].
    split; [reflexivity|].
    now rewrite (proj1 (apply_content_only host _ _ Hframes _)). }
  destruct Hst as [Hcall Hflag]. repeat split; try assumption.
  - intros apiKey' onSpeak' text. unfold sendMessage.
    cbn [isLoading setInputValue]. rewrite Hflag.
    destruct (trim (inputValue (setInputValue text (fst st))));
      reflexivity.
  - cbn [run fold_left]. now rewrite step_stop.
Qed.

(** X7.  A transport failure keeps what has streamed in.  When a read fails
    with anything but an abort, the assistant message keeps the content
    received so far and a second assistant entry is appended with the
    warning marker and the message of the error, or a generic notice when
    the error has none; the flag is lowered and the call returns. *)
Theorem transport_failure_keeps_content (key : jsstring) (onSpeak : bool)
  (box : ChatBox) (texts payloads : list jsstring) (error : JSError) :
  trim (inputValue box) <> [] -> isLoading box = false -> key <> [] ->
  fst (feed_all host [] texts) =
    map (fun p => FContent (JString p)) payloads ->
  str_eqb (name error) (u16 "AbortError") = false ->
  let st := run host (sendMessage host (Some key) onSpeak box)
              (Fetched (Response true true)
               :: chunks texts ++ [Read (ReadRejected error)]) in
  messages (fst st) =
    messages box ++
    [mkMessage user (trim (inputValue box)) (Date_now host (ticks box));
     mkMessage assistant (concat payloads) (Date_now host (S (ticks box)));
     mkMessage assistant
       (warning_prefix ++
        match message error with
        | [] => msg_retry_later
        | m => m
        end)
       (Date_now host (S (S (ticks box))))] /\
  isLoading (fst st) = false /\
  snd st = Returned.
Proof.
  intros Hmsg Hload Hkey Hframes Herror st. subst st.
  rewrite run_streaming by assumption.
  rewrite run_app, run_chunks, Hframes.
  cbn [run fold_left step resume_read fst snd].
  repeat split; [|apply isLoading_catch].
  unfold catch. rewrite Herror.
  cbn [messages setIsLoading setMessages tick].
  rewrite (proj2 (apply_content_only host _ _
                    (content_frames_only payloads) _)).
  rewrite (apply_content_frames host _ payloads _
             (messages box ++
              [mkMessage user (trim (inputValue box))
                 (Date_now host (ticks box))])
             [] (Date_now host (S (ticks box))))
    by (cbn [messages]; now rewrite <- app_assoc).
  cbn [ticks app]. now rewrite <- !app_assoc.
Qed.

(** X8.  An error frame replaces what has streamed in.  After content frames
    and an error frame, the assistant message holds the warning marker
    followed by a fixed notice when the frame gives no reason (absent, empty,
    [null], [false]), and by the reason of the frame otherwise, as the text
    that the template literal makes of it when the conversion does not throw
    (a text is taken as it is); the content received before is gone, the
    flag is lowered and the call goes on reading. *)
Theorem error_frame_replaces_content (key : jsstring) (onSpeak : bool)
  (box : ChatBox) (texts payloads : list jsstring) (reason : JSValue)
  (shown : jsstring) :
  trim (inputValue box) <> [] -> isLoading box = false -> key <> [] ->
  fst (feed_all host [] texts) =
    map (fun p => FContent (JString p)) payloads ++ [FError reason] ->
  (if ToBoolean host reason then ToString host reason
   else Some msg_processing_failed) = Some shown ->
  let st := run host (sendMessage host (Some key) onSpeak box)
              (Fetched (Response true true) :: chunks texts) in
  messages (fst st) =
    messages box ++
    [mkMessage user (trim (inputValue box)) (Date_now host (ticks box));
     mkMessage assistant (warning_prefix ++ shown)
       (Date_now host (S (ticks box)))] /\
  isLoading (fst st) = false /\
  exists buffer,
    snd st =
    AwaitRead (mkClosure (messages box) (trim (inputValue box)) onSpeak)
      buffer.
Proof.
  intros Hmsg Hload Hkey Hframes Hshown st. subst st.
  rewrite run_streaming by assumption.
  rewrite run_chunks, Hframes, apply_frames_app. cbn [fst snd].
  cbn [apply_frames fold_left apply_frame]. rewrite Hshown.
  repeat split; [|eexists; reflexivity].
  cbn [messages setMessages setIsLoading].
  fold (apply_frames host
          (mkClosure (messages box) (trim (inputValue box)) onSpeak)
          (map (fun p => FContent (JString p)) payloads)).
  rewrite (apply_content_frames host _ payloads _
             (messages box ++
              [mkMessage user (trim (inputValue box))
                 (Date_now host (ticks box))])
             [] (Date_now host (S (ticks box))))
    by (cbn [messages]; now rewrite <- app_assoc).
  rewrite update_last_assistant. now rewrite <- app_assoc.
Qed.

(** *** The start guard *)

Lemma sendMessage_grows (apiKey : option jsstring) (onSpeak : bool)
  (box : ChatBox) :
  trim (inputValue box) <> [] -> isLoading box = false ->
  length (messages box) <
  length (messages (fst (sendMessage host apiKey onSpeak box))).
Proof.
  intros Hmsg Hload.
  destruct (sendMessage_turn apiKey onSpeak box Hmsg Hload)
    as (tail & E & _).
  rewrite E, length_app. cbn [length]. lia.
Qed.

(** X9.  The send button and the handler agree.  The button is disabled
    exactly when [sendMessage] would return without doing anything. *)
Theorem send_disabled_iff_rejected (apiKey : option jsstring)
  (onSpeak : bool) (box : ChatBox) :
  send_disabled box = true <->
  sendMessage host apiKey onSpeak box = (box, Returned).
Proof.
  unfold send_disabled. split.
  - intros H. unfold sendMessage.
    destruct (isLoading box); [now destruct (trim (inputValue box))|].
    cbn [orb] in H. now destruct (trim (inputValue box)).
  - intros H. destruct (isLoading box) eqn:Hload; [reflexivity|].
    cbn [orb]. destruct (trim (inputValue box)) as [|m ms] eqn:E;
      [reflexivity|].
    assert (Hmsg : trim (inputValue box) <> []) by (rewrite E; discriminate).
    pose proof (sendMessage_grows apiKey onSpeak box Hmsg Hload) as Hlt.
    rewrite H in Hlt. cbn [fst] in Hlt. lia.
Qed.

(** *** Clearing the conversation *)

Lemma messages_apply_frame_nil (c : Closure) (f : Frame) (box : ChatBox) :
  messages box = [] -> messages (apply_frame host c f box) = [].
Proof.
  intros E. destruct (messages_apply_frame host c f box) as [g Eg].
  now rewrite Eg, E.
Qed.

Lemma messages_apply_frames_nil (c : Closure) (fs : list Frame) :
  forall box,
  messages box = [] -> messages (apply_frames host c fs box) = [].
Proof.
  induction fs as [|f fs IH]; intros box E; [exact E|].
  cbn [apply_frames fold_left]. apply IH.
  now apply messages_apply_frame_nil.
Qed.

(** X10.  Frames do not bring a cleared conversation back.  When the
    conversation is cleared while a response is streaming, the frames that
    still arrive find no assistant entry to write to: the transcript stays
    empty, whatever they carry. *)
Theorem cleared_transcript_stays_empty (c : Closure) (buffer : jsstring)
  (box : ChatBox) (texts : list jsstring) :
  messages (fst (run host (clearMessages box, AwaitRead c buffer)
                   (chunks texts))) = [].
Proof.
  rewrite run_chunks. cbn [fst]. now apply messages_apply_frames_nil.
Qed.

End SessionProperties.

(** *** Trimming *)

Lemma trimStart_spec (s : jsstring) :
  exists before,
    s = before ++ trimStart s /\
    forallb is_trim_space before = true /\
    is_trim_space (hd 0%N (trimStart s)) = false.
Proof.
  induction s as [|c s (before & E & Hb & Hh)].
  - exists []. now repeat split.
  - cbn [trimStart]. destruct (is_trim_space c) eqn:Hc.
    + exists (c :: before). cbn [app forallb]. rewrite Hc, Hb.
      repeat split; [now rewrite <- E|exact Hh].
    + exists []. now repeat split.
Qed.

Lemma trimEnd_spec (s : jsstring) :
  exists after,
    s = trimEnd s ++ after /\
    forallb is_trim_space after = true /\
    is_trim_space (last (trimEnd s) 0%N) = false.
Proof.
  unfold trimEnd. destruct (trimStart_spec (rev s)) as (before & E & Hb & Hh).
  exists (rev before). repeat split.
  - rewrite <- rev_app_distr, <- E. now rewrite rev_involutive.
  - apply forallb_forall. intros x Hx. apply in_rev in Hx.
    now apply (proj1 (forallb_forall _ _) Hb).
  - destruct (trimStart (rev s)) as [|c t]; [reflexivity|].
    cbn [rev hd] in *. now rewrite last_last.
Qed.

(** X11.  What is sent is the input without the white space around it.  The
    input is the trimmed text between two runs of white space, and the
    trimmed text neither starts nor ends with white space. *)
Theorem trim_spec (s : jsstring) :
  exists before after,
    s = before ++ trim s ++ after /\
    forallb is_trim_space before = true /\
    forallb is_trim_space after = true /\
    is_trim_space (hd 0%N (trim s)) = false /\
    is_trim_space (last (trim s) 0%N) = false.
Proof.
  unfold trim. destruct (trimStart_spec s) as (before & E & Hb & Hh).
  destruct (trimEnd_spec (trimStart s)) as (after & E' & Ha & Hl).
  exists before, after. repeat split; try assumption.
  - now rewrite <- E', <- E.
  - destruct (trimEnd (trimStart s)) as [|c t] eqn:T; [reflexivity|].
    rewrite E' in Hh. exact Hh.
Qed.

(** * Properties of the dashboard *)

Section DashboardProperties.

Variable numbers : Numbers.

Lemma read_alerts_total (total : nat) (shown : list Alert) :
  2 <= total ->
  forall index content,
  read_alerts total index shown content = read_alerts 2 index shown content.
Proof.
  intros Htotal. induction shown as [|alert shown IH]; intros index content;
    [reflexivity|].
  cbn [read_alerts].
  replace (Z.min (Z.of_nat total) 2) with (Z.min (Z.of_nat 2) 2) by lia.
  apply IH.
Qed.

(** X12.  The broadcast reads out two alerts at most.  Whatever alerts follow
    the first two have no part in the content. *)
Theorem broadcast_reads_two_alerts (ms : option (list (Metric numbers)))
  (al : list Alert) (ins sug : jsstring) :
  generateBroadcastContent numbers (Some (mkData numbers ms al ins sug)) =
  generateBroadcastContent numbers
    (Some (mkData numbers ms (firstn 2 al) ins sug)).
Proof.
  unfold generateBroadcastContent. cbn [metrics alerts insight suggestion].
  destruct ms as [ms|]; [|reflexivity].
  destruct al as [|a [|b [|c al]]]; try reflexivity.
  unfold slice_to. cbn [firstn].
  now rewrite read_alerts_total by (cbn [length]; lia).
Qed.

Lemma shortSuggestion_first (p rest : jsstring) :
  ~ In 12290%N p ->
  shortSuggestion (p ++ 12290%N :: rest) = p ++ txt_full_stop.
Proof.
  intros Hp. unfold shortSuggestion. now rewrite split_line by exact Hp.
Qed.

Lemma shortSuggestion_whole (s : jsstring) :
  ~ In 12290%N s -> shortSuggestion s = s ++ txt_full_stop.
Proof.
  intros Hs. unfold shortSuggestion. now rewrite split_no_sep by exact Hs.
Qed.

(** X13.  The broadcast reads out the first sentence of the suggestion only.
    What follows the first full stop of the suggestion has no part in the
    content, and a suggestion without a full stop is given one. *)
Theorem broadcast_reads_first_sentence
  (ms : option (list (Metric numbers))) (al : list Alert)
  (ins p : jsstring) :
  ~ In 12290%N p ->
  (forall rest,
     generateBroadcastContent numbers
       (Some (mkData numbers ms al ins (p ++ 12290%N :: rest))) =
     generateBroadcastContent numbers
       (Some (mkData numbers ms al ins (p ++ [12290%N])))) /\
  (p <> [] ->
   generateBroadcastContent numbers (Some (mkData numbers ms al ins p)) =
   generateBroadcastContent numbers
     (Some (mkData numbers ms al ins (p ++ [12290%N])))).
Proof.
  intros Hp. unfold generateBroadcastContent.
  cbn [metrics alerts insight suggestion].
  destruct ms as [ms|]; [|split; reflexivity]. split.
  - intros rest. rewrite !shortSuggestion_first by exact Hp.
    now destruct p.
  - intros Hne. rewrite shortSuggestion_first, shortSuggestion_whole
      by exact Hp.
    destruct p as [|c p]; [contradiction|reflexivity].
Qed.

Lemma find_filter (A : Type) (p q : A -> bool) (l : list A) :
  (forall x, p x = true -> q x = true) ->
  find p (filter q l) = find p l.
Proof.
  intros Hpq. induction l as [|x l IH]; [reflexivity|].
  cbn [filter find]. destruct (p x) eqn:Hp.
  - rewrite (Hpq x Hp). cbn [find]. now rewrite Hp.
  - destruct (q x); [cbn [find]; now rewrite Hp|exact IH].
Qed.

Lemma find_metric_filter (name : jsstring) (ms : list (Metric numbers)) :
  str_eqb name name_revenue || str_eqb name name_margin
  || str_eqb name name_users || str_eqb name name_orders = true ->
  find_metric numbers name (filter (is_broadcast_metric) ms) =
  find_metric numbers name ms.
Proof.
  intros Hname. unfold find_metric. apply find_filter.
  intros m Hm. apply str_eqb_eq in Hm.
  unfold is_broadcast_metric. now rewrite Hm.
Qed.

(** X14.  The broadcast reads out four metrics and no other.  Entries of the
    metrics under other names have no part in the content, wherever they
    stand in the list. *)
Theorem broadcast_reads_four_metrics (ms : list (Metric numbers))
  (al : list Alert) (ins sug : jsstring) :
  generateBroadcastContent numbers
    (Some (mkData numbers (Some ms) al ins sug)) =
  generateBroadcastContent numbers
    (Some (mkData numbers
             (Some (filter (is_broadcast_metric) ms)) al ins sug)).
Proof.
  unfold generateBroadcastContent. cbn [metrics alerts insight suggestion].
  now rewrite !find_metric_filter by reflexivity.
Qed.

(** *** Data generation *)

Lemma app_run_app (app : App numbers) (es1 es2 : list (AppEvent numbers)) :
  app_run (app_run app es1) es2 = app_run app (es1 ++ es2).
Proof. symmetry. apply fold_left_app. Qed.

Lemma data_invariant_step (app : App numbers) (e : AppEvent numbers) :
  lastDataRef app = aiData app /\
  (aiData app = None -> previousData app = None) ->
  lastDataRef (app_step app e) = aiData (app_step app e) /\
  (aiData (app_step app e) = None -> previousData (app_step app e) = None).
Proof.
  intros Hinv. destruct e as [s| |scenario| |i o|i]; cbn [app_step];
    try exact Hinv.
  - unfold handleBroadcast. now destruct (isSpeaking app).
  - destruct (nth_error (generating app) i) as [call|]; [|exact Hinv].
    destruct o as [data now|error]; [|exact Hinv].
    cbn. split; [reflexivity|discriminate].
  - destruct (nth_error (timers app) i) as [[|captured text]|];
      exact Hinv.
Qed.

Lemma data_invariant (avatar : jsstring) (events : list (AppEvent numbers)) :
  lastDataRef (app_run (mounted numbers avatar) events) =
    aiData (app_run (mounted numbers avatar) events) /\
  (aiData (app_run (mounted numbers avatar) events) = None ->
   previousData (app_run (mounted numbers avatar) events) = None).
Proof.
  induction events as [|e events IH] using rev_ind; [now split|].
  rewrite <- app_run_app. cbn [app_run fold_left].
  now apply data_invariant_step.
Qed.

(** X15.  The data that arrive displace the data on display.  Whatever has
    happened since the dashboard was mounted, when the data service answers
    a call with data, these become the data on display and the data they
    displace become the previous data; an answer that is a failure, and
    every other event, leaves both as they are. *)
Theorem arrival_displaces_data (avatar : jsstring)
  (events : list (AppEvent numbers)) :
  let app := app_run (mounted numbers avatar) events in
  (forall i call data now,
     nth_error (generating app) i = Some call ->
     aiData (app_step app (Settled i (Generated data now))) = Some data /\
     previousData (app_step app (Settled i (Generated data now))) =
       aiData app) /\
  (forall e,
     (forall i data now, e <> Settled i (Generated data now)) ->
     aiData (app_step app e) = aiData app /\
     previousData (app_step app e) = previousData app).
Proof.
  intros app. destruct (data_invariant avatar events) as [Href Hnone].
  fold app in Href, Hnone. split.
  - intros i call data now Hcall. cbn [app_step]. rewrite Hcall.
    cbn. split; [reflexivity|]. rewrite Href.
    destruct (aiData app); [reflexivity|now apply Hnone].
  - intros e He.
    destruct e as [s| |scenario| |i o|i]; cbn [app_step]; try now split.
    + unfold handleBroadcast. now destruct (isSpeaking app).
    + destruct (nth_error (generating app) i) as [call|]; [|now split].
      destruct o as [data now|error]; [|now split].
      now elim (He i data now).
    + now destruct (nth_error (timers app) i) as [[|captured text]|].
Qed.

Lemma cycle_state (st : App numbers) (scenario : jsstring)
  (data : AIGeneratedData numbers) (now : Z) :
  generating st = [] -> lastDataRef st = aiData st ->
  generating (app_run st (generation_cycle (scenario, data, now))) = [] /\
  aiData (app_run st (generation_cycle (scenario, data, now))) = Some data /\
  previousData (app_run st (generation_cycle (scenario, data, now))) =
    match aiData st with
    | Some displaced => Some displaced
    | None => previousData st
    end.
Proof.
  destruct st as [s0 cs ai pv rf ig de lu sp sd rq gn tm].
  cbn [generating lastDataRef aiData previousData].
  intros -> ->. now repeat split.
Qed.

(** The state after a run of generations, each answered before the next
    is started: no call is in flight, the data on display are the last that
    arrived and the previous data those that arrived before them. *)
Lemma cycles_state (avatar : jsstring)
  (gs : list (jsstring * AIGeneratedData numbers * Z)) :
  generating
    (app_run (mounted numbers avatar) (flat_map generation_cycle gs)) = [] /\
  aiData (app_run (mounted numbers avatar) (flat_map generation_cycle gs)) =
    last (map (fun g => Some (snd (fst g))) gs) None /\
  previousData
    (app_run (mounted numbers avatar) (flat_map generation_cycle gs)) =
    last (map (fun g => Some (snd (fst g))) (removelast gs)) None.
Proof.
  induction gs as [|[[scenario data] now] gs (Hgen & Hdata & Hprev)]
    using rev_ind; [now repeat split|].
  pose proof (data_invariant avatar (flat_map generation_cycle gs))
    as [Href _].
  rewrite flat_map_app, <- app_run_app. cbn [flat_map]. rewrite app_nil_r.
  destruct (cycle_state _ scenario data now Hgen Href) as (Hg & Hd & Hp).
  rewrite Hg, Hd, Hp, removelast_last, map_app. cbn [map].
  rewrite last_last. repeat split. rewrite Hdata, Hprev.
  destruct gs as [|g gs _] using rev_ind; [reflexivity|].
  rewrite map_app. cbn [map]. now rewrite last_last.
Qed.

(** X16.  A request carries the data before the data on display.  When
    generations follow one another, the request that starts a generation
    carries the metrics of the data set that arrived before the latest one:
    none for the first two requests, and never those on display. *)
Theorem request_carries_displaced_data (avatar : jsstring)
  (gs : list (jsstring * AIGeneratedData numbers * Z))
  (scenario : jsstring) :
  data_requests
    (app_run (mounted numbers avatar)
       (flat_map generation_cycle gs ++ [ScenarioPicked scenario])) =
  data_requests
    (app_run (mounted numbers avatar) (flat_map generation_cycle gs)) ++
  [mkDataRequest numbers scenario
     match last (map (fun g => Some (snd (fst g))) (removelast gs)) None with
     | Some previous => Some (metrics previous)
     | None => None
     end].
Proof.
  destruct (cycles_state avatar gs) as (_ & _ & Hprev).
  rewrite <- app_run_app. cbn [app_run fold_left app_step
                               handleScenarioChange generateData
                               data_requests previousData].
  now rewrite Hprev.
Qed.

(** *** Broadcast *)

Lemma filter_remove_nth (A : Type) (p : A -> bool) (l : list A) :
  forall i t,
  nth_error l i = Some t ->
  length (filter p l) =
  length (filter p (remove_nth i l)) + (if p t then 1 else 0).
Proof.
  induction l as [|x l IH]; intros [|i] t H; try discriminate.
  - injection H as ->. cbn [remove_nth filter].
    destruct (p t); cbn [length]; lia.
  - cbn [nth_error] in H. cbn [remove_nth filter].
    destruct (p x); cbn [length]; rewrite (IH i t H); lia.
Qed.

Lemma speaking_step (app : App numbers) (e : AppEvent numbers) :
  length (filter is_reset (timers app)) = (if isSpeaking app then 1 else 0) ->
  length (filter is_reset (timers (app_step app e))) =
  (if isSpeaking (app_step app e) then 1 else 0).
Proof.
  intros Hinv. destruct e as [s| |scenario| |i o|i]; cbn [app_step];
    try exact Hinv.
  - unfold handleBroadcast. destruct (isSpeaking app) eqn:E.
    + now rewrite E.
    + cbn [timers isSpeaking]. rewrite filter_app, length_app, Hinv.
      reflexivity.
  - destruct (nth_error (generating app) i) as [call|]; [|exact Hinv].
    destruct o as [data now|error]; [|exact Hinv].
    cbn [generateData_settled timers isSpeaking].
    destruct (gen_speak call); [|exact Hinv].
    destruct (insight data); [exact Hinv|].
    rewrite filter_app, length_app, Hinv. cbn. lia.
  - destruct (nth_error (timers app) i) as [t|] eqn:Ht; [|exact Hinv].
    pose proof (filter_remove_nth _ is_reset _ _ _ Ht) as Hlen.
    destruct t as [|captured text]; cbn [fire timers isSpeaking is_reset] in *.
    + destruct (isSpeaking app); lia.
    + lia.
Qed.

(** X17.  The speaking flag is up exactly while its reset is pending.
    Whatever has happened since the dashboard was mounted, one reset timer
    is pending when the flag is up and none when it is down: a broadcast is
    never started while another one holds the flag, and a flag that is up
    is always due to come down. *)
Theorem speaking_flag_has_reset_pending (avatar : jsstring)
  (events : list (AppEvent numbers)) :
  length (filter is_reset
            (timers (app_run (mounted numbers avatar) events))) =
  (if isSpeaking (app_run (mounted numbers avatar) events) then 1 else 0).
Proof.
  induction events as [|e events IH] using rev_ind; [reflexivity|].
  rewrite <- app_run_app. cbn [app_run fold_left].
  now apply speaking_step.
Qed.

Lemma handleAvatarSpeak_silent (captured text : jsstring)
  (log : list jsstring) :
  str_eqb captured (u16 "connected") = false ->
  handleAvatarSpeak captured text log = log.
Proof. intros H. unfold handleAvatarSpeak. now rewrite H. Qed.

Lemma forallb_remove_nth (A : Type) (p : A -> bool) (l : list A) :
  forall i, forallb p l = true -> forallb p (remove_nth i l) = true.
Proof.
  induction l as [|x l IH]; intros [|i] H; cbn [remove_nth forallb] in *;
    try reflexivity.
  - now apply andb_prop in H.
  - apply andb_prop in H. destruct H as [Hx Hl]. now rewrite Hx, (IH i Hl).
Qed.

Lemma forallb_nth_error (A : Type) (p : A -> bool) (l : list A) (i : nat)
  (x : A) :
  forallb p l = true -> nth_error l i = Some x -> p x = true.
Proof.
  intros Hl Hx. apply nth_error_In in Hx.
  now apply (proj1 (forallb_forall _ _) Hl).
Qed.

Lemma silent_step (app : App numbers) (e : AppEvent numbers) :
  quiet_event e = true ->
  str_eqb (status app) (u16 "connected") = false ->
  forallb quiet_generation (generating app) = true ->
  forallb quiet_timer (timers app) = true ->
  str_eqb (status (app_step app e)) (u16 "connected") = false /\
  forallb quiet_generation (generating (app_step app e)) = true /\
  forallb quiet_timer (timers (app_step app e)) = true /\
  said (app_step app e) = said app.
Proof.
  intros He Hstatus Hgen Htimers.
  assert (Hcall : quiet_generation (mkGeneration true (status app)) = true
                  /\ quiet_generation (mkGeneration false (status app))
                      = true).
  { unfold quiet_generation. cbn [gen_status]. now rewrite Hstatus. }
  destruct Hcall as [Hcall Hcall'].
  destruct e as [s| |scenario| |i o|i]; cbn [app_step].
  - cbn [quiet_event] in He. apply negb_true_iff in He. now repeat split.
  - unfold generateData. cbn [status generating timers said].
    rewrite forallb_app, Hgen. cbn [forallb]. rewrite Hcall'.
    now repeat split.
  - unfold handleScenarioChange, generateData.
    cbn [status generating timers said].
    rewrite forallb_app, Hgen. cbn [forallb]. rewrite Hcall.
    now repeat split.
  - unfold handleBroadcast. destruct (isSpeaking app); [now repeat split|].
    cbn [status generating timers said].
    rewrite forallb_app, Htimers, handleAvatarSpeak_silent by assumption.
    now repeat split.
  - destruct (nth_error (generating app) i) as [call|] eqn:Ecall;
      [|now repeat split].
    pose proof (forallb_nth_error _ _ _ _ _ Hgen Ecall) as Hq.
    pose proof (forallb_remove_nth _ quiet_generation _ i Hgen) as Hrest.
    destruct o as [data now|error]; unfold generateData_settled;
      cbn [status generating timers said]; [|now repeat split].
    destruct (gen_speak call); [|now repeat split].
    destruct (insight data); [now repeat split|].
    rewrite forallb_app, Htimers. cbn [forallb quiet_timer].
    unfold quiet_generation in Hq. rewrite Hq. now repeat split.
  - destruct (nth_error (timers app) i) as [t|] eqn:Et; [|now repeat split].
    pose proof (forallb_nth_error _ _ _ _ _ Htimers Et) as Hq.
    pose proof (forallb_remove_nth _ quiet_timer _ i Htimers) as Hrest.
    destruct t as [|captured text]; unfold fire;
      cbn [status generating timers said]; [now repeat split|].
    cbn [quiet_timer] in Hq. apply negb_true_iff in Hq.
    rewrite handleAvatarSpeak_silent by exact Hq. now repeat split.
Qed.

(** X18.  Nothing is said while the avatar is not connected.  As long as the
    status that the store reports is never 'connected', neither a
    broadcast nor the announcement of new data reaches the avatar. *)
Theorem silent_unless_connected (avatar : jsstring)
  (events : list (AppEvent numbers)) :
  str_eqb avatar (u16 "connected") = false ->
  forallb quiet_event events = true ->
  said (app_run (mounted numbers avatar) events) = [].
Proof.
  intros Havatar Hevents.
  assert (H : str_eqb (status (app_run (mounted numbers avatar) events))
                (u16 "connected") = false /\
              forallb quiet_generation
                (generating (app_run (mounted numbers avatar) events))
              = true /\
              forallb quiet_timer
                (timers (app_run (mounted numbers avatar) events)) = true /\
              said (app_run (mounted numbers avatar) events) = []).
  { induction events as [|e events IH] using rev_ind.
    - now repeat split.
    - rewrite forallb_app in Hevents. apply andb_prop in Hevents.
      destruct Hevents as [Hes He]. cbn [forallb] in He.
      rewrite andb_true_r in He.
      destruct (IH Hes) as (Hs & Hg & Ht & Hsaid).
      rewrite <- app_run_app. cbn [app_run fold_left].
      destruct (silent_step _ e He Hs Hg Ht) as (Hs' & Hg' & Ht' & Hsaid').
      repeat split; try assumption. now rewrite Hsaid'. }
  exact (proj2 (proj2 (proj2 H))).
Qed.

End DashboardProperties.

(** * The further properties on concrete inputs *)

Example broadcast_of_sample_data :
  generateBroadcastContent integer_numbers (Some sample_data) =
  txt_intro
  ++ txt_revenue_is ++ u16 "523" ++ txt_wan_yuan_vs ++ txt_growth
  ++ u16 "12.00" ++ txt_percent_stop
  ++ txt_users_is ++ u16 "1,234,567" ++ txt_people_vs ++ txt_decline
  ++ u16 "3.00" ++ txt_percent_stop
  ++ txt_attention ++ u16 "A1" ++ txt_semicolon ++ u16 "A2" ++ txt_full_stop
  ++ u16 "Insight."
  ++ u16 "First" ++ txt_full_stop
  ++ txt_outro.
Proof. reflexivity. Qed.

Lemma decode_line_frame_witness :
  decode_line reference_host (content_line "Rev ") =
    Some (FContent (JString (u16 "Rev "))) /\
  startsWith (content_line "Rev ") (u16 "data: ") = true.
Proof.
  split; [reflexivity|].
  exact (proj1 (decode_line_frame reference_host (content_line "Rev ")
                  (FContent (JString (u16 "Rev "))) eq_refl)).
Defined.

Lemma history_preserved_witness :
  (trim (inputValue (second_turn "revenue?")) <> [] /\
   isLoading (second_turn "revenue?") = false) /\
  exists tail,
    messages
      (fst (run reference_host
              (sendMessage reference_host api_key true
                 (second_turn "revenue?"))
              (Fetched (Response true true)
               :: chunks [unlines scenario_stream]))) =
    messages (second_turn "revenue?") ++
    mkMessage user (trim (inputValue (second_turn "revenue?")))
      (Date_now reference_host (ticks (second_turn "revenue?")))
    :: tail /\
    Forall (fun m => role m = assistant) tail.
Proof.
  assert (H1 : trim (inputValue (second_turn "revenue?")) <> [])
    by not_empty.
  split; [split; [exact H1|reflexivity]|].
  exact (history_preserved reference_host api_key true
           (second_turn "revenue?")
           (Fetched (Response true true) :: chunks [unlines scenario_stream])
           H1 eq_refl).
Defined.

Lemma single_request_witness :
  (trim (inputValue (typed "revenue?")) <> [] /\
   isLoading (typed "revenue?") = false) /\
  length
    (requests
       (fst (run reference_host
               (sendMessage reference_host api_key true (typed "revenue?"))
               [Fetched (Response false true); Stop;
                Fetched (FetchRejected network_error)]))) = 1.
Proof.
  assert (H1 : trim (inputValue (typed "revenue?")) <> []) by not_empty.
  split; [split; [exact H1|reflexivity]|].
  exact (f_equal (@length Request)
           (single_request reference_host api_key true (typed "revenue?")
              [Fetched (Response false true); Stop;
               Fetched (FetchRejected network_error)]
              H1 eq_refl)).
Defined.

Lemma loading_survives_stream_end_witness :
  (trim (inputValue (typed "revenue?")) <> [] /\
   isLoading (typed "revenue?") = false /\
   u16 "sk-demo" <> [] /\
   forallb is_content (fst (feed_all reference_host [] hello_chunks))
   = true) /\
  isLoading
    (fst (run reference_host
            (sendMessage reference_host (Some (u16 "sk-demo")) true
               (typed "revenue?"))
            (Fetched (Response true true)
             :: chunks hello_chunks ++ [Read Done]))) = true.
Proof.
  assert (H1 : trim (inputValue (typed "revenue?")) <> []) by not_empty.
  assert (H2 : u16 "sk-demo" <> []) by not_empty.
  split; [split; [exact H1|split; [reflexivity|split; [exact H2|]]]|].
  - reflexivity.
  - exact (proj1 (proj2 (loading_survives_stream_end reference_host
                           (u16 "sk-demo") true (typed "revenue?")
                           hello_chunks H1 eq_refl H2 eq_refl))).
Defined.

Lemma transport_failure_keeps_content_witness :
  (trim (inputValue (typed "revenue?")) <> [] /\
   isLoading (typed "revenue?") = false /\
   u16 "sk-demo" <> [] /\
   fst (feed_all reference_host [] hello_chunks) =
     map (fun p => FContent (JString p)) [u16 "He"; u16 "llo"] /\
   str_eqb (name network_error) (u16 "AbortError") = false) /\
  snd (run reference_host
         (sendMessage reference_host (Some (u16 "sk-demo")) true
            (typed "revenue?"))
         (Fetched (Response true true)
          :: chunks hello_chunks ++ [Read (ReadRejected network_error)])) =
  Returned.
Proof.
  assert (H1 : trim (inputValue (typed "revenue?")) <> []) by not_empty.
  assert (H2 : u16 "sk-demo" <> []) by not_empty.
  split.
  - split; [exact H1|]. split; [reflexivity|]. split; [exact H2|].
    split; reflexivity.
  - exact (proj2 (proj2 (transport_failure_keeps_content reference_host
                           (u16 "sk-demo") true (typed "revenue?")
                           hello_chunks [u16 "He"; u16 "llo"] network_error
                           H1 eq_refl H2 eq_refl eq_refl))).
Defined.

Lemma error_frame_replaces_content_witness :
  (trim (inputValue (typed "revenue?")) <> [] /\
   isLoading (typed "revenue?") = false /\
   u16 "sk-demo" <> [] /\
   fst (feed_all reference_host []
          [unlines [content_line "Rev "; error_line "quota"]]) =
     map (fun p => FContent (JString p)) [u16 "Rev "]
     ++ [FError (JString (u16 "quota"))] /\
   (if ToBoolean reference_host (JString (u16 "quota"))
    then ToString reference_host (JString (u16 "quota"))
    else Some msg_processing_failed) = Some (u16 "quota")) /\
  map (fun m => (role m, content m))
    (messages
       (fst (run reference_host
               (sendMessage reference_host (Some (u16 "sk-demo")) true
                  (typed "revenue?"))
               (Fetched (Response true true)
                :: chunks
                     [unlines [content_line "Rev "; error_line "quota"]])))) =
  [(user, u16 "revenue?"); (assistant, warning_prefix ++ u16 "quota")].
Proof.
  assert (H1 : trim (inputValue (typed "revenue?")) <> []) by not_empty.
  assert (H2 : u16 "sk-demo" <> []) by not_empty.
  split.
  - split; [exact H1|]. split; [reflexivity|]. split; [exact H2|].
    split; reflexivity.
  - exact (eq_trans
             (f_equal (map (fun m => (role m, content m)))
                (proj1 (error_frame_replaces_content reference_host
                          (u16 "sk-demo") true (typed "revenue?")
                          [unlines [content_line "Rev ";
                                    error_line "quota"]]
                          [u16 "Rev "] (JString (u16 "quota")) (u16 "quota")
                          H1 eq_refl H2 eq_refl eq_refl)))
             eq_refl).
Defined.

Lemma broadcast_reads_first_sentence_witness :
  ~ In 12290%N (u16 "First") /\
  generateBroadcastContent integer_numbers (Some sample_data) =
  generateBroadcastContent integer_numbers
    (Some (mkData integer_numbers (metrics sample_data)
             (alerts sample_data) (insight sample_data)
             (u16 "First" ++ [12290%N]))).
Proof.
  assert (H : ~ In 12290%N (u16 "First")) by no_newline.
  split; [exact H|].
  exact (proj1 (broadcast_reads_first_sentence integer_numbers
                  (metrics sample_data) (alerts sample_data)
                  (insight sample_data) (u16 "First") H)
           (u16 "Second" ++ [12290%N])).
Defined.

Lemma silent_unless_connected_witness :
  (str_eqb (u16 "connecting") (u16 "connected") = false /\
   forallb quiet_event
     [ScenarioPicked (u16 "growth");
      Settled 0 (Generated sample_data 1700000000000);
      BroadcastClicked; Fired 0; StatusChanged (u16 "error"); Fired 0]
   = true) /\
  said
    (app_run (mounted integer_numbers (u16 "connecting"))
       [ScenarioPicked (u16 "growth");
        Settled 0 (Generated sample_data 1700000000000);
        BroadcastClicked; Fired 0; StatusChanged (u16 "error"); Fired 0]) =
  [].
Proof.
  split; [split; reflexivity|].
  exact (silent_unless_connected integer_numbers (u16 "connecting")
           [ScenarioPicked (u16 "growth");
            Settled 0 (Generated sample_data 1700000000000);
            BroadcastClicked; Fired 0; StatusChanged (u16 "error"); Fired 0]
           eq_refl eq_refl).
Defined.

(** With the avatar connected, the same events reach it twice: once for
    the broadcast and once for the announcement of the new data. *)
Example connected_avatar_speaks :
  said
    (app_run (mounted integer_numbers (u16 "connected"))
       [ScenarioPicked (u16 "growth");
        Settled 0 (Generated sample_data 1700000000000);
        BroadcastClicked; Fired 0]) =
  [generateBroadcastContent integer_numbers (Some sample_data);
   txt_data_updated ++ u16 "Insight."].
Proof. reflexivity. Qed.
